(** * kndetect.features: PCA-template feature extraction for light curves

    A shallow embedding of [src/kndetect/features.py] and the properties of
    its feature layout, eligibility gate, index mapping and loss.

    Numbers.  The Python code works on numpy float64 values.  They are
    modelled here as real numbers ([R]): [+], [-], [*], [/], [np.square],
    [np.sqrt] are the exact operations and comparisons are the exact order.
    Rounding error, infinities and NaN are outside this model.  Python ints
    that are mixed into float arithmetic ([num_prediction_points - 1]) are
    kept as [Z] until the source converts them.

    Exceptions.  A Python exception is a [Raise] in the [res] monad below. *)

From Stdlib Require Import String Ascii DecimalString Decimal.
From Stdlib Require Import Reals Lra Lia ZArith Bool List Sorted.
From Corelib Require PrimFloat.
Import ListNotations.

Open Scope R_scope.

(** ** Results of fallible Python code *)

Inductive exn : Type :=
| IndexError
| ValueError.

Inductive res (A : Type) : Type :=
| Ok (a : A)
| Raise (e : exn).

Arguments Ok {A} a.
Arguments Raise {A} e.

Definition bind {A B : Type} (m : res A) (k : A -> res B) : res B :=
  match m with
  | Ok a => k a
  | Raise e => Raise e
  end.

Notation "x <- m ;; k" := (bind m (fun x => k))
  (at level 61, m at next level, right associativity).

Definition res_map {A B : Type} (f : A -> B) (m : res A) : res B :=
  x <- m ;; Ok (f x).

Fixpoint mapM {A B : Type} (f : A -> res B) (l : list A) : res (list B) :=
  match l with
  | [] => Ok []
  | a :: t => b <- f a ;; bs <- mapM f t ;; Ok (b :: bs)
  end.

(** ** The numpy and pandas operations the module uses *)

Definition Rltb (x y : R) : bool := if Rlt_dec x y then true else false.

(** A one-dimensional float array is a [list R]; [np.zeros_like] of a Python
    int is a zero-dimensional array, kept apart as [Scalar]. *)
Inductive ndarray : Type :=
| Scalar (x : R)
| Vector (v : list R).

Fixpoint map2 {A B C : Type} (f : A -> B -> C) (u : list A) (v : list B)
  : list C :=
  match u, v with
  | a :: u', b :: v' => f a b :: map2 f u' v'
  | _, _ => []
  end.

(** Elementwise binary operation on two 1-d arrays with numpy's broadcasting:
    equal shapes combine pointwise, a 1-element array is stretched, anything
    else is "operands could not be broadcast together". *)
Definition broadcast2 (f : R -> R -> R) (u v : list R) : res (list R) :=
  if Nat.eqb (length u) (length v) then Ok (map2 f u v)
  else match u, v with
       | [x], _ => Ok (map (f x) v)
       | _, [y] => Ok (map (fun x => f x y) u)
       | _, _ => Raise ValueError
       end.

Definition np_add (x y : ndarray) : res ndarray :=
  match x, y with
  | Scalar a, Scalar b => Ok (Scalar (a + b))
  | Scalar a, Vector v => Ok (Vector (map (Rplus a) v))
  | Vector u, Scalar b => Ok (Vector (map (fun x => x + b) u))
  | Vector u, Vector v => r <- broadcast2 Rplus u v ;; Ok (Vector r)
  end.

(** [b * a] for a float [b] and a 1-d array [a]. *)
Definition scale (b : R) (a : list R) : list R := map (Rmult b) a.

(** [np.square] *)
Definition square (x : R) : R := x * x.

(** [np.sum] and [np.mean] of a 1-d array. *)
Definition np_sum (l : list R) : R := fold_right Rplus 0 l.

Definition np_mean (l : list R) : R := np_sum l / INR (length l).

(** Indexing with a Python/numpy integer: [-n <= i < n], negative indices
    counting from the end, anything else an [IndexError]. *)
Definition np_index {A : Type} (l : list A) (i : Z) : res A :=
  let n := Z.of_nat (length l) in
  let k := if (i <? 0)%Z then (i + n)%Z else i in
  if ((0 <=? k)%Z && (k <? n)%Z)%bool then
    match nth_error l (Z.to_nat k) with
    | Some a => Ok a
    | None => Raise IndexError
    end
  else Raise IndexError.

(** [series.iloc[i]] with a position that came out of [np.argmax]. *)
Definition iloc {A : Type} (l : list A) (i : nat) : res A :=
  np_index l (Z.of_nat i).

(** The flattened view [np.take] indexes. *)
Definition flat (a : ndarray) : list R :=
  match a with
  | Scalar x => [x]
  | Vector v => v
  end.

(** [np.take(a, indices)] with the default [mode='raise']. *)
Definition np_take (a : ndarray) (indices : list Z) : res (list R) :=
  mapM (np_index (flat a)) indices.

(** [np.argmax]: the position of the first occurrence of the maximum. *)
Fixpoint argmax_from (best : R) (besti i : nat) (l : list R) : nat :=
  match l with
  | [] => besti
  | x :: t =>
      if Rlt_dec best x then argmax_from x i (S i) t
      else argmax_from best besti (S i) t
  end.

Definition np_argmax (l : list R) : res nat :=
  match l with
  | [] => Raise ValueError
  | x :: t => Ok (argmax_from x 0%nat 1%nat t)
  end.

(** [np.around]: round to the nearest integer, ties to the even one;
    [.astype(int)] of the result is that integer. *)
Definition np_around (x : R) : Z :=
  let f := Int_part x in
  let d := x - IZR f in
  if Rlt_dec d (1 / 2) then f
  else if Rlt_dec (1 / 2) d then (f + 1)%Z
  else if Z.even f then f else (f + 1)%Z.

(** ** get_feature_names *)

(** [str(n)] for a natural number. *)
Definition str (n : nat) : string := NilEmpty.string_of_uint (Nat.to_uint n).

Definition names_root (npcs : nat) : list string :=
  (map (fun i => ("coeff" ++ str (i + 1) ++ "_")%string) (seq 0 npcs))
    ++ ["residuo_"%string; "maxflux_"%string].

(** [[i + j for j in ["g", "r"] for i in names_root]]: the outer loop runs
    over the band suffix [j], the inner one over the root names [i]. *)
Definition get_feature_names (npcs : nat) : list string :=
  flat_map (fun j => map (fun i => (i ++ j)%string) (names_root npcs))
           ["g"%string; "r"%string].

(** ** calc_prediction *)

(** The loop [for a, b in zip(pcs_arr, coeff)] from a given accumulator. *)
Fixpoint prediction_loop (predicted_lc : ndarray)
  (pcs_arr : list (list R)) (coeff : list R) : res ndarray :=
  match pcs_arr, coeff with
  | a :: pcs', b :: coeff' =>
      p <- np_add predicted_lc (Vector (scale b a)) ;;
      prediction_loop p pcs' coeff'
  | _, _ => Ok predicted_lc
  end.

Definition calc_prediction (coeff : list R) (pcs_arr : list (list R))
  : res ndarray :=
  prediction_loop (Scalar 0) pcs_arr coeff.

(** ** calc_loss *)

Definition calc_loss (coeff : list R) (pcs_arr : list (list R))
  (light_curve_flux light_curve_err : list R)
  (map_dates_to_arr_index : list Z) (regularization_weight : R)
  (low_var_indices : option (list Z)) : res R :=
  y_pred <- calc_prediction coeff pcs_arr ;;
  real_flux <- np_take y_pred map_dates_to_arr_index ;;
  diff <- broadcast2 Rminus real_flux light_curve_flux ;;
  terms <- broadcast2 Rdiv (map square diff) (map square light_curve_err) ;;
  let reconstruction_loss := np_sum terms in
  regularization_term <-
    match low_var_indices with
    | Some idx => sel <- mapM (np_index coeff) idx ;; Ok (np_sum (map square sel))
    | None => Ok 0
    end ;;
  c0 <- np_index coeff 0%Z ;;
  let regularization_term :=
    if Rlt_dec c0 0 then regularization_term + square c0
    else regularization_term in
  Ok (reconstruction_loss + regularization_term * regularization_weight).

(** ** calc_residual *)

Definition calc_residual (coeff : list R) (pcs_arr : list (list R))
  (light_curve_flux light_curve_err : list R)
  (map_dates_to_arr_index : list Z) : res R :=
  y_pred <- calc_prediction coeff pcs_arr ;;
  real_flux <- np_take y_pred map_dates_to_arr_index ;;
  diff <- broadcast2 Rminus real_flux light_curve_flux ;;
  terms <- broadcast2 Rdiv (map square diff) (map square light_curve_err) ;;
  let reconstruction_loss := np_mean terms in
  Ok (sqrt reconstruction_loss).

(** ** Light-curve tables *)

(** One row of a light-curve dataframe with the columns the module reads. *)
Record row : Type := mkRow {
  MJD : R;
  FLT : string;
  FLUXCAL : R;
  FLUXCALERR : R
}.

(** ** predict_band_features *)

(** The rows with [start_date < MJD < end_date] (source lines 192-198). *)
Definition prediction_window (band_df : list row) (mid_point_date time_bin : R)
  (num_prediction_points : nat) : list row :=
  let prediction_duration :=
    time_bin * IZR (Z.of_nat num_prediction_points - 1) in
  let start_date := mid_point_date - prediction_duration / 2 in
  let end_date := mid_point_date + prediction_duration / 2 in
  filter (fun r => Rltb start_date (MJD r) && Rltb (MJD r) end_date) band_df.

(** The mapping from dates to template-grid indices (source lines 207-211),
    for the rows kept by the window. *)
Definition dates_to_arr_index (band_df : list row) (mid_point_date time_bin : R)
  (num_prediction_points : nat) : list Z :=
  map (fun r =>
         np_around ((MJD r - mid_point_date) / time_bin
                    + IZR (Z.of_nat num_prediction_points - 1) / 2))
      band_df.

(** The eligibility test of source line 200. *)
Definition fit_gate (max_flux flux_lim : R) (band_df : list row) : bool :=
  Rltb flux_lim max_flux && (2 <=? length band_df)%nat.

Definition default_time_bin : R := 1 / 4.
Definition default_flux_lim : R := 200.
Definition default_low_var_indices : option (list Z) := Some [1%Z; 2%Z].

Section Fit.

(** [scipy.optimize.minimize] is not code of this repository.  It is taken as
    a parameter: given the objective (with its [args] already supplied), the
    initial guess and the bounds it yields [result.x], or the exception that
    escaped from it. *)
Variable minimize :
  (list R -> res R) -> list R -> list (R * R) -> res (list R).

(** The branch taken when the gate holds (source lines 201-254);
    [band_df] is the windowed table. *)
Definition fit_band (band_df : list row) (pcs : list (list R))
  (num_pcs num_prediction_points : nat) (max_flux mid_point_date : R)
  (time_bin : R) (low_var_indices : option (list Z)) : res (list R) :=
  max_loc <- np_argmax (map FLUXCAL band_df) ;;
  let map_dates_to_arr_index :=
    dates_to_arr_index band_df mid_point_date time_bin num_prediction_points in
  let initial_guess := map (fun z => z + 1 / 2) (repeat 0 num_pcs) in
  err_bar_of_max_flux <- iloc (map FLUXCALERR band_df) max_loc ;;
  let regularization_weight := square (max_flux / err_bar_of_max_flux) in
  let normalized_flux := map (fun f => f / max_flux) (map FLUXCAL band_df) in
  let normalized_err_bars :=
    map (fun e => e / max_flux) (map FLUXCALERR band_df) in
  let bounds := repeat (-2, 2) num_pcs in
  result_x <-
    minimize (fun c => calc_loss c pcs normalized_flux normalized_err_bars
                         map_dates_to_arr_index regularization_weight
                         low_var_indices)
             initial_guess bounds ;;
  let coeff := result_x in
  let max_band_flux := max_flux in
  residual <-
    calc_residual result_x pcs normalized_flux normalized_err_bars
      map_dates_to_arr_index ;;
  Ok (coeff ++ [residual; max_band_flux]).

Definition predict_band_features (band_df : list row) (pcs : list (list R))
  (time_bin flux_lim : R) (low_var_indices : option (list Z))
  : res (list R) :=
  let num_pcs := length pcs in
  pcs0 <- np_index pcs 0%Z ;;
  let num_prediction_points := length pcs0 in
  if Nat.eqb (length band_df) 0 then
    Ok (repeat 0 (Nat.div (length (get_feature_names num_pcs)) 2))
  else
    max_loc <- np_argmax (map FLUXCAL band_df) ;;
    max_flux <- iloc (map FLUXCAL band_df) max_loc ;;
    mid_point_date <- iloc (map MJD band_df) max_loc ;;
    let band_df :=
      prediction_window band_df mid_point_date time_bin num_prediction_points in
    if fit_gate max_flux flux_lim band_df then
      fit_band band_df pcs num_pcs num_prediction_points max_flux
        mid_point_date time_bin low_var_indices
    else
      let coeff := repeat 0 num_pcs in
      let residual := 0 in
      let max_band_flux := 0 in
      Ok (coeff ++ [residual; max_band_flux]).

(** ** extract_features_all_bands *)

Fixpoint all_bands_loop (all_features : list R) (pcs : list (list R))
  (filters : list string) (lc : list row) (flux_lim time_bin : R)
  : res (list R) :=
  match filters with
  | [] => Ok all_features
  | band :: rest =>
      let band_df := filter (fun r => String.eqb (FLT r) band) lc in
      features <-
        predict_band_features band_df pcs time_bin flux_lim (Some [1%Z; 2%Z]) ;;
      all_bands_loop (all_features ++ features) pcs rest lc flux_lim time_bin
  end.

Definition extract_features_all_bands (pcs : list (list R))
  (filters : list string) (lc : list row) (flux_lim time_bin : R)
  : res (list R) :=
  all_bands_loop [] pcs filters lc flux_lim time_bin.

(** ** extract_features_all_lightcurves, one object *)

(** [enumerate] *)
Definition enumerate {A : Type} (l : list A) : list (nat * A) :=
  combine (seq 0 (length l)) l.

(** The body of the loop over [object_ids] with [mimic_alerts=False]
    (source lines 337-356): the table of the object, NaN fluxes dropped, is
    turned into features and each name of [get_feature_names()] receives
    [features[i]]. *)
Definition object_features (object_lc : list row) (pcs : list (list R))
  (filters : list string) : res (list (string * R)) :=
  let time_bin := 1 / 4 in
  let flux_lim := 200 in
  let feature_names := get_feature_names 3 in
  let object_lc :=
    filter (fun r => if Req_dec_T (FLUXCAL r) (FLUXCAL r) then true else false)
           object_lc in
  features <- extract_features_all_bands pcs filters object_lc flux_lim time_bin ;;
  mapM (fun p => v <- np_index features (Z.of_nat (fst p)) ;; Ok (snd p, v))
       (enumerate feature_names).

End Fit.

(** A minimizer that stops at the initial guess: the objective is evaluated
    there once, and an exception it raises escapes. *)
Definition minimize_at_x0 (f : list R -> res R) (x0 : list R)
  (bounds : list (R * R)) : res (list R) :=
  match f x0 with
  | Ok _ => Ok x0
  | Raise e => Raise e
  end.

(** What the theorems below assume of [scipy.optimize.minimize]: its
    [result.x] has the dimension of [x0], and an objective that is defined
    on every point of that dimension does give a result. *)
Definition minimize_returns
  (minimize : (list R -> res R) -> list R -> list (R * R) -> res (list R))
  : Prop :=
  (forall f x0 bounds x,
     minimize f x0 bounds = Ok x -> length x = length x0)
  /\ (forall f x0 bounds,
        (forall x, length x = length x0 -> exists v, f x = Ok v) ->
        exists x, minimize f x0 bounds = Ok x).

(** A template matrix is a numpy array of shape [(P, N)]. *)
Definition shape (pcs : list (list R)) (P N : nat) : Prop :=
  length pcs = P /\ Forall (fun pc => length pc = N) pcs.

(** ** Spec-level definitions the theorems compare the code with *)

(** The predicted curve at grid point [n], as the specification writes it:
    [pred = sum_i c_i * T_i]. *)
Definition pred_at (c : list R) (T : list (list R)) (n : nat) : R :=
  np_sum (map2 (fun ci Ti => ci * nth n Ti 0) c T).

(** The loss as the specification writes it, with the low-variance index
    set [L] given by positions. *)
Definition reconstruction_formula (c : list R) (T : list (list R))
  (y sigma : list R) (m : list Z) : R :=
  np_sum (map (fun j =>
                 square ((pred_at c T (Z.to_nat (nth j m 0%Z)) - nth j y 0)
                         / nth j sigma 0))
              (seq 0 (length m))).

Definition regularization_formula (c : list R) (L : list nat) : R :=
  np_sum (map (fun i => square (nth i c 0)) L)
  + (if Rlt_dec (nth 0 c 0) 0 then square (nth 0 c 0) else 0).

Definition loss_formula (c : list R) (T : list (list R)) (y sigma : list R)
  (m : list Z) (w : R) (L : list nat) : R :=
  reconstruction_formula c T y sigma m + w * regularization_formula c L.

(** The name list the specification's sentence describes: for each field,
    the names of all bands next to each other. *)
Definition names_grouped_by_field (npcs : nat) : list string :=
  flat_map (fun i => map (fun j => (i ++ j)%string) ["g"%string; "r"%string])
           (names_root npcs).

(** [p] is the first row of [l] on which [f] is maximal; [pre] and [post]
    are the rows before and after it. *)
Definition is_peak {A : Type} (f : A -> R) (l pre : list A) (p : A)
  (post : list A) : Prop :=
  l = pre ++ p :: post
  /\ Forall (fun r => f r < f p) pre
  /\ Forall (fun r => f r <= f p) post.

(** The optimizer is reached: whatever exception a minimizer raises when it
    is called comes out of [predict_band_features]. *)
Definition fit_attempted (band_df : list row) (pcs : list (list R))
  (time_bin flux_lim : R) (low_var_indices : option (list Z)) : Prop :=
  forall e,
    predict_band_features (fun _ _ _ => Raise e) band_df pcs time_bin flux_lim
      low_var_indices = Raise e.

(** Indices that numpy accepts for an array of [n] elements. *)
Definition valid_indices (n : nat) (low_var_indices : option (list Z)) : Prop :=
  match low_var_indices with
  | None => True
  | Some idx => Forall (fun i => (- Z.of_nat n <= i < Z.of_nat n)%Z) idx
  end.

(** Every flux and flux error of the table multiplied by [k]. *)
Definition rescale (k : R) (band_df : list row) : list row :=
  map (fun r => mkRow (MJD r) (FLT r) (k * FLUXCAL r) (k * FLUXCALERR r))
      band_df.

(** The residual entry of a band's feature list: the one before the last. *)
Definition residual_of (features : list R) : R :=
  nth (length features - 2) features 0.

(** [a * p] for a float [a] and an array [p] of any dimension. *)
Definition nd_scale (a : R) (p : ndarray) : ndarray :=
  match p with
  | Scalar x => Scalar (a * x)
  | Vector v => Vector (scale a v)
  end.

(** ** kndetect.utils *)

(** [snana_ob_type_name]: the chain of [if type_no == ...: return ...];
    falling off the end returns [None]. *)
Definition snana_ob_type_name (type_no : Z) : option string :=
  if (type_no =? 141)%Z then Some "141: 91BG"%string
  else if (type_no =? 143)%Z then Some "143: Iax"%string
  else if (type_no =? 145)%Z then Some "145: point Ia"%string
  else if (type_no =? 149)%Z then Some "149: KN GRANDMA"%string
  else if (type_no =? 150)%Z then Some "150: KN GW170817"%string
  else if (type_no =? 151)%Z then Some "151: KN Kasen 2017"%string
  else if (type_no =? 160)%Z then Some "160: Superluminous SN"%string
  else if (type_no =? 161)%Z then Some "161: pair instability SN"%string
  else if (type_no =? 162)%Z then Some "162: ILOT"%string
  else if (type_no =? 163)%Z then Some "163: CART"%string
  else if (type_no =? 164)%Z then Some "164: TDE"%string
  else if (type_no =? 170)%Z then Some "170: AGN"%string
  else if (type_no =? 180)%Z then Some "180: RRLyrae"%string
  else if (type_no =? 181)%Z then Some "M 181: dwarf_flares"%string
  else if (type_no =? 183)%Z then Some "183: PHOEBE"%string
  else if (type_no =? 190)%Z then Some "190: uLens_BSR"%string
  else if (type_no =? 191)%Z then Some "191: uLens_Bachelet"%string
  else if (type_no =? 192)%Z then Some "192: uLens_STRING"%string
  else if (type_no =? 114)%Z then Some "114: MOSFIT-IIn"%string
  else if (type_no =? 113)%Z then Some "113: Core collapse Type II pca"%string
  else if (type_no =? 112)%Z then Some "112: Core collapse Type II"%string
  else if (type_no =? 102)%Z then Some "102: MOSFIT-Ibc"%string
  else if (type_no =? 103)%Z then Some "103: Core collapse Type Ibc"%string
  else if (type_no =? 101)%Z then Some "101: Ia SN"%string
  else if (type_no =? 0)%Z then Some "0: Unknown"%string
  else None.

(** The type numbers the chain tests, in its order. *)
Definition snana_type_numbers : list Z :=
  [141; 143; 145; 149; 150; 151; 160; 161; 162; 163; 164; 170; 180; 181;
   183; 190; 191; 192; 114; 113; 112; 102; 103; 101; 0]%Z.

(** [str(n)] for an integer that is not negative. *)
Definition str_Z (n : Z) : string := str (Z.to_nat n).

(** [load_pcs]: the array read from the file, cut to its first [npcs]
    components ([np.load(fn)[0:npcs]]); the content of the file is the
    argument [stored]. *)
Definition load_pcs (stored : list (list R)) (npcs : nat) : list (list R) :=
  firstn npcs stored.

(** What [get_event_type] returns: the types alone, or the types with
    their names when [fetch_type_name] is set. *)
Inductive event_types_result : Type :=
| Types (event_types : list Z)
| TypesAndNames (event_types : list Z) (event_names : list (option string)).

(** The loop [for id in key] of [get_event_type]; [meta_df] is the pair of
    columns [(meta_key_col_name, meta_type_col_name)], row by row. *)
Fixpoint event_type_loop (key : list Z) (meta_df : list (Z * Z))
  (event_types : list Z) (event_names : list (option string))
  : res (list Z * list (option string)) :=
  match key with
  | [] => Ok (event_types, event_names)
  | id :: rest =>
      event_type <-
        np_index (map snd (filter (fun r => (fst r =? id)%Z) meta_df)) 0%Z ;;
      event_type_loop rest meta_df (event_types ++ [event_type])
        (event_names ++ [snana_ob_type_name event_type])
  end.

(** [get_event_type]; [key] is one object id ([inl]) or a list of them
    ([inr]). *)
Definition get_event_type (key : Z + list Z) (meta_df : list (Z * Z))
  (fetch_type_name : bool) : res event_types_result :=
  let key := match key with inl id => [id] | inr ids => ids end in
  r <- event_type_loop key meta_df [] [] ;;
  if fetch_type_name then Ok (TypesAndNames (fst r) (snd r))
  else Ok (Types (fst r)).

Definition Rleb (x y : R) : bool := if Rle_dec x y then true else false.

(** [np.amin] of a 1-d array; an empty one has no minimum. *)
Definition np_amin (l : list R) : res R :=
  match l with
  | [] => Raise ValueError
  | x :: t => Ok (fold_left Rmin t x)
  end.

Section Mimic.

(** [DataFrame.sample()] draws one row at random; the row drawn in the call
    at hand is given by [sample]. *)
Variable sample : list row -> row.

(** [extract_mimic_alerts_region] with a [flux_lim] given; [current_date]
    and [duration] are [None] or a number. *)
Definition extract_mimic_alerts_region (lc : list row) (flux_lim : R)
  (current_date duration : option R) : res (list row * R) :=
  let drawn :=
    match current_date with
    | None =>
        let lc_above_threshold :=
          filter (fun r => Rltb flux_lim (FLUXCAL r)) lc in
        if Nat.eqb (length lc_above_threshold) 0
        then inl (lc_above_threshold, 0)
        else inr (MJD (sample lc_above_threshold))
    | Some d => inr d
    end in
  match drawn with
  | inl early => Ok early
  | inr current_date =>
      start_date <-
        match duration with
        | None => np_amin (map MJD lc)
        | Some d => Ok (current_date - d)
        end ;;
      let lc_segment :=
        filter (fun r => Rleb start_date (MJD r) && Rleb (MJD r) current_date)
               lc in
      Ok (lc_segment, current_date)
  end.

End Mimic.

(** ** extract_features_all_lightcurves *)

(** [np.unique] of integer keys: the distinct values in ascending order. *)
Fixpoint insert_unique (x : Z) (l : list Z) : list Z :=
  match l with
  | [] => [x]
  | y :: t =>
      if (x <? y)%Z then x :: l
      else if (x =? y)%Z then l
      else y :: insert_unique x t
  end.

Definition np_unique (l : list Z) : list Z := fold_right insert_unique [] l.

Section Driver.

Variable minimize :
  (list R -> res R) -> list R -> list (R * R) -> res (list R).
Variable sample : list row -> row.

(** One turn of the loop over [object_ids] (source lines 346-356): the rows
    of the object, NaN fluxes dropped, cut to the alert region when
    [mimic_alerts] is set, give the features; each name of
    [get_feature_names()] receives [features[i]].  The result is the named
    features and the [current_date] appended in the mimic case. *)
Definition lightcurve_row (lc_df : list (Z * row)) (object_id : Z)
  (pcs : list (list R)) (filters : list string) (mimic_alerts : bool)
  : res (list (string * R) * option R) :=
  let time_bin := 1 / 4 in
  let flux_lim := 200 in
  let feature_names := get_feature_names 3 in
  let object_lc :=
    map snd (filter (fun kr => (fst kr =? object_id)%Z) lc_df) in
  let object_lc :=
    filter (fun r => if Req_dec_T (FLUXCAL r) (FLUXCAL r) then true else false)
           object_lc in
  cut <-
    (if mimic_alerts then
       region <-
         extract_mimic_alerts_region sample object_lc flux_lim None
           (Some 30) ;;
       Ok (fst region, Some (snd region))
     else Ok (object_lc, None)) ;;
  features <-
    extract_features_all_bands minimize pcs filters (fst cut) flux_lim
      time_bin ;;
  named <-
    mapM (fun p => v <- np_index features (Z.of_nat (fst p)) ;; Ok (snd p, v))
         (enumerate feature_names) ;;
  Ok (named, snd cut).

(** The table is kept row by row: the key of each object with its named
    features (the columns [features_df[feature_name]] and
    [features_df["key"]] read across), and the list [current_dates]. *)
Fixpoint lightcurves_loop (object_ids : list Z) (lc_df : list (Z * row))
  (pcs : list (list R)) (filters : list string) (mimic_alerts : bool)
  (rows : list (Z * list (string * R))) (current_dates : list R)
  : res (list (Z * list (string * R)) * list R) :=
  match object_ids with
  | [] => Ok (rows, current_dates)
  | object_id :: rest =>
      r <- lightcurve_row lc_df object_id pcs filters mimic_alerts ;;
      lightcurves_loop rest lc_df pcs filters mimic_alerts
        (rows ++ [(object_id, fst r)])
        (match snd r with
         | Some current_date => current_dates ++ [current_date]
         | None => current_dates
         end)
  end.

Definition extract_features_all_lightcurves (lc_df : list (Z * row))
  (pcs : list (list R)) (filters : list string) (mimic_alerts : bool)
  : res (list (Z * list (string * R)) * option (list R)) :=
  let object_ids := np_unique (map fst lc_df) in
  r <- lightcurves_loop object_ids lc_df pcs filters mimic_alerts [] [] ;;
  if mimic_alerts then Ok (fst r, Some (snd r)) else Ok (fst r, None).

End Driver.

(** ** Transformations of a band table used in the statements *)

(** Every observation time moved by [d]. *)
Definition shift_time (d : R) (band_df : list row) : list row :=
  map (fun r => mkRow (MJD r + d) (FLT r) (FLUXCAL r) (FLUXCALERR r)) band_df.

(** A feature list with its last entry, the peak flux, multiplied by [k]. *)
Definition scale_peak_flux (k : R) (features : list R) : list R :=
  removelast features ++ [k * last features 0].

(** A light curve with observations in the bands g and r. *)
Definition example_lc : list row :=
  [mkRow 0 "g" 300 10; mkRow (1 / 8) "r" 150 10; mkRow (1 / 4) "g" 400 20;
   mkRow (1 / 2) "g" 250 10; mkRow (3 / 4) "r" 260 15].

(** The ids a [key] argument of [get_event_type] stands for. *)
Definition key_list (key : Z + list Z) : list Z :=
  match key with
  | inl id => [id]
  | inr ids => ids
  end.

(** [(id, t)] is the first row of [meta_df] whose key is [id]. *)
Definition first_match (meta_df : list (Z * Z)) (id t : Z) : Prop :=
  exists before after,
    meta_df = before ++ (id, t) :: after /\ ~ In id (map fst before).

(** A table of object ids and type numbers in which id 1 occurs twice. *)
Definition example_meta : list (Z * Z) := [(1, 150); (2, 101); (1, 141)]%Z.

(** A draw that takes the first row of the table it is given. *)
Definition sample_first (l : list row) : row := hd (mkRow 0 "" 0 0) l.

(** What is assumed of [DataFrame.sample()]: the row it draws is a row of
    the table. *)
Definition sample_draws (sample : list row -> row) : Prop :=
  forall l, l <> [] -> In (sample l) l.

(** A table of two objects, 7 and 3; the rows of object 7 are those of
    [example_lc], object 3 has one faint observation. *)
Definition example_lc_df : list (Z * row) :=
  [(7%Z, mkRow 0 "g" 300 10); (7%Z, mkRow (1 / 8) "r" 150 10);
   (3%Z, mkRow 0 "g" 120 10); (7%Z, mkRow (1 / 4) "g" 400 20);
   (7%Z, mkRow (1 / 2) "g" 250 10); (7%Z, mkRow (3 / 4) "r" 260 15)].

(** ** The same arithmetic in float64

    The definitions above read the float64 operations of numpy as the exact
    operations on real numbers.  This module transcribes [calc_prediction]
    and [calc_loss] once more with the IEEE binary64 operations themselves,
    to measure exact-arithmetic statements against the rounding of the
    code.  [np.sum] adds its terms in order, starting from 0, which is what
    numpy does for fewer than 8 terms. *)
Module F64.

Import PrimFloat.

Inductive ndarray : Type :=
| Scalar (x : float)
| Vector (v : list float).

Definition broadcast2 (f : float -> float -> float) (u v : list float)
  : res (list float) :=
  if Nat.eqb (length u) (length v) then Ok (map2 f u v)
  else match u, v with
       | [x], _ => Ok (map (f x) v)
       | _, [y] => Ok (map (fun x => f x y) u)
       | _, _ => Raise ValueError
       end.

Definition np_add (x y : ndarray) : res ndarray :=
  match x, y with
  | Scalar a, Scalar b => Ok (Scalar (a + b)%float)
  | Scalar a, Vector v => Ok (Vector (map (add a) v))
  | Vector u, Scalar b => Ok (Vector (map (fun x => (x + b)%float) u))
  | Vector u, Vector v => r <- broadcast2 add u v ;; Ok (Vector r)
  end.

Definition scale (b : float) (a : list float) : list float := map (mul b) a.

Definition nd_scale (a : float) (p : ndarray) : ndarray :=
  match p with
  | Scalar x => Scalar (a * x)%float
  | Vector v => Vector (scale a v)
  end.

Definition square (x : float) : float := (x * x)%float.

Definition np_sum (l : list float) : float := fold_left add l 0%float.

Definition flat (a : ndarray) : list float :=
  match a with
  | Scalar x => [x]
  | Vector v => v
  end.

Definition np_take (a : ndarray) (indices : list Z) : res (list float) :=
  mapM (np_index (flat a)) indices.

Fixpoint prediction_loop (predicted_lc : ndarray)
  (pcs_arr : list (list float)) (coeff : list float) : res ndarray :=
  match pcs_arr, coeff with
  | a :: pcs', b :: coeff' =>
      p <- np_add predicted_lc (Vector (scale b a)) ;;
      prediction_loop p pcs' coeff'
  | _, _ => Ok predicted_lc
  end.

Definition calc_prediction (coeff : list float) (pcs_arr : list (list float))
  : res ndarray :=
  prediction_loop (Scalar 0%float) pcs_arr coeff.

Definition calc_loss (coeff : list float) (pcs_arr : list (list float))
  (light_curve_flux light_curve_err : list float)
  (map_dates_to_arr_index : list Z) (regularization_weight : float)
  (low_var_indices : option (list Z)) : res float :=
  y_pred <- calc_prediction coeff pcs_arr ;;
  real_flux <- np_take y_pred map_dates_to_arr_index ;;
  diff <- broadcast2 sub real_flux light_curve_flux ;;
  terms <- broadcast2 div (map square diff) (map square light_curve_err) ;;
  let reconstruction_loss := np_sum terms in
  regularization_term <-
    match low_var_indices with
    | Some idx => sel <- mapM (np_index coeff) idx ;; Ok (np_sum (map square sel))
    | None => Ok 0%float
    end ;;
  c0 <- np_index coeff 0%Z ;;
  let regularization_term :=
    if ltb c0 0%float then (regularization_term + square c0)%float
    else regularization_term in
  Ok (reconstruction_loss + regularization_term * regularization_weight)%float.

(** The loss as the specification writes it, evaluated in float64:
    [sum_j ((pred[m_j] - y_j) / sigma_j)^2
     + w * (sum_{i in L} c_i^2 + (c_0^2 if c_0 < 0))],
    [pred = sum_i c_i * T_i]. *)
Definition pred_at (c : list float) (T : list (list float)) (n : nat)
  : float :=
  np_sum (map2 (fun ci Ti => (ci * nth n Ti 0)%float) c T).

Definition loss_formula (c : list float) (T : list (list float))
  (y sigma : list float) (m : list Z) (w : float) (L : list nat) : float :=
  (np_sum (map (fun j =>
                  square ((pred_at c T (Z.to_nat (nth j m 0%Z)) - nth j y 0)
                          / nth j sigma 0))
               (seq 0 (length m)))
   + w * (np_sum (map (fun i => square (nth i c 0)) L)
          + (if ltb (nth 0 c 0) 0 then square (nth 0 c 0) else 0)))%float.

(** The normalization of [predict_band_features] (source lines 222-223):
    [values / max_flux]. *)
Definition normalize (values : list float) (max_flux : float) : list float :=
  map (fun f => (f / max_flux)%float) values.

End F64.

(** What [scipy.optimize.minimize] does with an objective that raises at
    the initial guess: it evaluates the objective there first, and the
    exception escapes. *)
Definition minimize_propagates
  (minimize : (list R -> res R) -> list R -> list (R * R) -> res (list R))
  : Prop :=
  forall f x0 bounds e, f x0 = Raise e -> minimize f x0 bounds = Raise e.

(** Two templates on a grid of five points. *)
Definition two_pcs : list (list R) := [[1; 2; 3; 2; 1]; [0; 1; 0; -1; 0]].

(** ** Example inputs *)

(** Three templates on a grid of five points: with [time_bin = 1/4] the
    window spans one day. *)
Definition example_pcs : list (list R) :=
  [[1; 2; 3; 2; 1]; [0; 1; 0; -1; 0]; [1; 0; -1; 0; 1]].

(** A g-band light curve whose peak (flux 400) is its second row. *)
Definition example_band : list row :=
  [mkRow 0 "g" 300 10; mkRow (1 / 4) "g" 400 20; mkRow (1 / 2) "g" 250 10].

(** Templates that are zero everywhere: every prediction is the zero curve. *)
Definition zero_pcs : list (list R) :=
  [[0; 0; 0; 0; 0]; [0; 0; 0; 0; 0]; [0; 0; 0; 0; 0]].

(** Two observations of flux 400 with error bar 400, a quarter day apart. *)
Definition bright_pair : list row :=
  [mkRow 0 "g" 400 400; mkRow (1 / 4) "g" 400 400].

(** ** Lists and numpy helpers *)

Lemma length_map2 {A B C : Type} (f : A -> B -> C) (u : list A) (v : list B) :
  length u = length v -> length (map2 f u v) = length u.
Proof.
  revert v; induction u as [|a u IH]; intros [|b v] H; simpl in *;
    try discriminate; auto.
Qed.

Lemma nth_map2 {A B C : Type} (f : A -> B -> C) (u : list A) (v : list B)
  (n : nat) (da : A) (db : B) (dc : C) :
  length u = length v -> (n < length u)%nat ->
  nth n (map2 f u v) dc = f (nth n u da) (nth n v db).
Proof.
  revert v n; induction u as [|a u IH]; intros [|b v] n H Hn; simpl in *;
    try discriminate; try lia.
  destruct n; auto. apply IH; lia.
Qed.

Lemma broadcast2_same (f : R -> R -> R) (u v : list R) :
  length u = length v -> broadcast2 f u v = Ok (map2 f u v).
Proof.
  intros H. unfold broadcast2. rewrite H, Nat.eqb_refl. reflexivity.
Qed.

Lemma np_index_nonneg {A : Type} (l : list A) (i : nat) (d : A) :
  (i < length l)%nat -> np_index l (Z.of_nat i) = Ok (nth i l d).
Proof.
  intros H. unfold np_index.
  replace (Z.of_nat i <? 0)%Z with false by (symmetry; apply Z.ltb_ge; lia).
  replace (0 <=? Z.of_nat i)%Z with true by (symmetry; apply Z.leb_le; lia).
  replace (Z.of_nat i <? Z.of_nat (length l))%Z with true
    by (symmetry; apply Z.ltb_lt; lia).
  simpl. rewrite Nat2Z.id.
  rewrite (nth_error_nth' l d H). reflexivity.
Qed.

Lemma np_index_in_range {A : Type} (l : list A) (i : Z) (d : A) :
  (0 <= i < Z.of_nat (length l))%Z ->
  np_index l i = Ok (nth (Z.to_nat i) l d).
Proof.
  intros H. rewrite <- (Z2Nat.id i) at 1 by lia.
  apply np_index_nonneg. lia.
Qed.

Lemma np_index_valid {A : Type} (l : list A) (i : Z) :
  (- Z.of_nat (length l) <= i < Z.of_nat (length l))%Z ->
  exists a, np_index l i = Ok a.
Proof.
  intros H. unfold np_index.
  set (n := Z.of_nat (length l)) in *.
  set (k := if (i <? 0)%Z then (i + n)%Z else i).
  assert (Hk : (0 <= k < n)%Z).
  { unfold k. destruct (Z.ltb_spec i 0); lia. }
  replace (0 <=? k)%Z with true by (symmetry; apply Z.leb_le; lia).
  replace (k <? n)%Z with true by (symmetry; apply Z.ltb_lt; lia).
  simpl. destruct (nth_error l (Z.to_nat k)) eqn:E; eauto.
  apply nth_error_None in E. unfold n in Hk. lia.
Qed.

Lemma iloc_split {A B : Type} (g : A -> B) (pre : list A) (p : A)
  (post : list A) :
  iloc (map g (pre ++ p :: post)) (length pre) = Ok (g p).
Proof.
  unfold iloc. rewrite (np_index_nonneg _ _ (g p)).
  - rewrite map_app, app_nth2; rewrite length_map; [|lia].
    rewrite Nat.sub_diag. reflexivity.
  - rewrite length_map, length_app. simpl. lia.
Qed.

Lemma mapM_in_range (l : list R) (idx : list Z) :
  Forall (fun i => (0 <= i < Z.of_nat (length l))%Z) idx ->
  mapM (np_index l) idx = Ok (map (fun i => nth (Z.to_nat i) l 0) idx).
Proof.
  induction 1 as [|i idx Hi _ IH]; simpl; auto.
  rewrite (np_index_in_range l i 0 Hi). simpl. rewrite IH. reflexivity.
Qed.

Lemma mapM_valid {A : Type} (l : list A) (idx : list Z) :
  Forall (fun i => (- Z.of_nat (length l) <= i < Z.of_nat (length l))%Z) idx ->
  exists sel, mapM (np_index l) idx = Ok sel.
Proof.
  induction 1 as [|i idx Hi _ [sel IH]]; simpl; eauto.
  destruct (np_index_valid l i Hi) as [a ->]. simpl. rewrite IH. simpl. eauto.
Qed.

Lemma mapM_length {A B : Type} (f : A -> res B) (l : list A) (out : list B) :
  mapM f l = Ok out -> length out = length l.
Proof.
  revert out; induction l as [|a l IH]; simpl; intros out H.
  - inversion H; reflexivity.
  - destruct (f a); simpl in H; try discriminate.
    destruct (mapM f l); simpl in H; try discriminate.
    inversion H; subst; simpl. f_equal. apply IH. reflexivity.
Qed.

(** ** Feature names *)

Lemma length_names_root (npcs : nat) :
  length (names_root npcs) = (npcs + 2)%nat.
Proof.
  unfold names_root. rewrite length_app, length_map, length_seq. reflexivity.
Qed.

Lemma get_feature_names_by_band (npcs : nat) :
  get_feature_names npcs =
  map (fun i => (i ++ "g")%string) (names_root npcs)
    ++ map (fun i => (i ++ "r")%string) (names_root npcs).
Proof.
  unfold get_feature_names. simpl. rewrite app_nil_r. reflexivity.
Qed.

Lemma length_get_feature_names (npcs : nat) :
  length (get_feature_names npcs) = (2 * (npcs + 2))%nat.
Proof.
  rewrite get_feature_names_by_band, length_app, !length_map,
    length_names_root. lia.
Qed.

Lemma half_feature_names (npcs : nat) :
  Nat.div (length (get_feature_names npcs)) 2 = (npcs + 2)%nat.
Proof.
  rewrite length_get_feature_names, Nat.mul_comm. apply Nat.div_mul. lia.
Qed.

Lemma repeat_plus_two (P : nat) :
  repeat 0 (P + 2) = repeat 0 P ++ [0; 0].
Proof. rewrite repeat_app. reflexivity. Qed.

(** ** The predicted curve *)

Lemma pred_at_nil_r (c : list R) (n : nat) : pred_at c [] n = 0.
Proof. unfold pred_at. destruct c; reflexivity. Qed.

Lemma pred_at_cons (b : R) (c : list R) (a : list R) (T : list (list R))
  (n : nat) :
  pred_at (b :: c) (a :: T) n = b * nth n a 0 + pred_at c T n.
Proof. reflexivity. Qed.

Lemma nth_scale (b : R) (a : list R) (n : nat) :
  nth n (scale b a) 0 = b * nth n a 0.
Proof.
  unfold scale. revert n; induction a as [|x a IH]; intros [|n]; simpl;
    try ring; auto.
Qed.

Lemma length_scale (b : R) (a : list R) : length (scale b a) = length a.
Proof. apply length_map. Qed.

(** From a vector accumulator of the grid's length the loop adds, point by
    point, the linear combination of the remaining templates. *)
Lemma prediction_loop_vector (N : nat) (T : list (list R)) :
  Forall (fun pc => length pc = N) T ->
  forall (c acc : list R), length acc = N ->
  exists v, prediction_loop (Vector acc) T c = Ok (Vector v)
            /\ length v = N
            /\ forall n, (n < N)%nat -> nth n v 0 = nth n acc 0 + pred_at c T n.
Proof.
  induction 1 as [|a T Ha HT IH]; intros c acc Hacc.
  - exists acc. destruct c; simpl; repeat split; auto;
      intros; rewrite pred_at_nil_r; ring.
  - destruct c as [|b c].
    + exists acc. simpl. repeat split; auto. intros. unfold pred_at. simpl. ring.
    + simpl. rewrite broadcast2_same by (rewrite length_scale; congruence).
      simpl.
      destruct (IH c (map2 Rplus acc (scale b a))) as (v & Hv & Hlen & Hnth).
      { rewrite length_map2; rewrite ?length_scale; congruence. }
      exists v. repeat split; auto.
      intros n Hn. rewrite (Hnth n Hn), pred_at_cons.
      rewrite (nth_map2 Rplus acc (scale b a) n 0 0 0);
        rewrite ?length_scale, ?nth_scale; try congruence; try lia.
      ring.
Qed.

(** With at least one template and one coefficient, [calc_prediction] is a
    curve on the grid whose points are the spec's linear combination. *)
Lemma calc_prediction_vector (P N : nat) (T : list (list R)) (c : list R) :
  shape T P N -> (1 <= P)%nat -> (1 <= length c)%nat ->
  exists v, calc_prediction c T = Ok (Vector v)
            /\ length v = N
            /\ forall n, (n < N)%nat -> nth n v 0 = pred_at c T n.
Proof.
  intros [HP HN] HP1 Hc.
  destruct T as [|a T]; [simpl in HP; lia|].
  destruct c as [|b c]; [simpl in Hc; lia|].
  inversion HN as [|? ? Ha HT]; subst.
  unfold calc_prediction. simpl.
  destruct (prediction_loop_vector (length a) T HT c
              (map (Rplus 0) (scale b a))) as (v & Hv & Hlen & Hnth).
  { rewrite length_map, length_scale. reflexivity. }
  exists v. repeat split; auto.
  intros n Hn. rewrite (Hnth n Hn), pred_at_cons.
  assert (E : nth n (map (Rplus 0) (scale b a)) 0 = nth n (scale b a) 0).
  { rewrite (nth_indep _ 0 (0 + 0)) by (rewrite length_map, length_scale; lia).
    rewrite map_nth. ring. }
  rewrite E, nth_scale. reflexivity.
Qed.

Lemma pred_at_linear (a b : R) (n : nat) (c1 : list R) :
  forall (c2 : list R) (T : list (list R)), length c1 = length c2 ->
  pred_at (map2 Rplus (scale a c1) (scale b c2)) T n
  = a * pred_at c1 T n + b * pred_at c2 T n.
Proof.
  induction c1 as [|x c1 IH]; intros [|y c2] T H; simpl in H; try discriminate.
  - unfold pred_at. simpl. ring.
  - destruct T as [|t T].
    + rewrite !pred_at_nil_r. ring.
    + simpl. rewrite !pred_at_cons, IH by lia. ring.
Qed.

(** C8 (as amended). In exact real arithmetic [calc_prediction] is linear
    in the coefficients: for a template matrix [T] of shape (P, N),
    coefficient vectors [c1], [c2] of length P and scalars [a], [b], the
    prediction of [a * c1 + b * c2] is
    [a * calc_prediction(c1, T) + b * calc_prediction(c2, T)].  In float64
    the two sides agree up to rounding only
    ([F64Facts.calc_prediction_not_linear_float64]). *)
Theorem calc_prediction_linear (P N : nat) (T : list (list R))
  (c1 c2 : list R) (a b : R) :
  shape T P N -> length c1 = P -> length c2 = P ->
  (c <- broadcast2 Rplus (scale a c1) (scale b c2) ;; calc_prediction c T)
  = (p1 <- calc_prediction c1 T ;;
     p2 <- calc_prediction c2 T ;;
     np_add (nd_scale a p1) (nd_scale b p2)).
Proof.
  intros HT H1 H2.
  rewrite broadcast2_same by (rewrite !length_scale; congruence).
  simpl.
  destruct P as [|P].
  - destruct HT as [HT _]. apply length_zero_iff_nil in HT. subst T.
    apply length_zero_iff_nil in H1, H2. subst c1 c2.
    unfold calc_prediction. simpl. do 2 f_equal. ring.
  - destruct (calc_prediction_vector (S P) N T c1 HT) as (v1 & E1 & L1 & N1);
      try lia.
    destruct (calc_prediction_vector (S P) N T c2 HT) as (v2 & E2 & L2 & N2);
      try lia.
    destruct (calc_prediction_vector (S P) N T
                (map2 Rplus (scale a c1) (scale b c2)) HT)
      as (v & E & L & Nv); try lia.
    { rewrite length_map2; rewrite !length_scale; lia. }
    rewrite E, E1, E2. simpl.
    rewrite broadcast2_same by (rewrite !length_scale; congruence).
    simpl. do 2 f_equal.
    apply (nth_ext _ _ 0 0).
    + rewrite length_map2; rewrite !length_scale; congruence.
    + intros n Hn. rewrite L in Hn.
      rewrite (nth_map2 Rplus _ _ n 0 0 0);
        rewrite ?length_scale, ?nth_scale; try congruence; try lia.
      rewrite (Nv n Hn), (N1 n Hn), (N2 n Hn).
      apply pred_at_linear. congruence.
Qed.

Lemma calc_prediction_linear_witness :
  (c <- broadcast2 Rplus (scale 2 [1; 2; 3]) (scale 3 [4; 5; 6]) ;;
   calc_prediction c example_pcs)
  = (p1 <- calc_prediction [1; 2; 3] example_pcs ;;
     p2 <- calc_prediction [4; 5; 6] example_pcs ;;
     np_add (nd_scale 2 p1) (nd_scale 3 p2)).
Proof.
  apply (calc_prediction_linear 3 5 example_pcs [1; 2; 3] [4; 5; 6] 2 3).
  - split; [reflexivity|]. repeat constructor.
  - reflexivity.
  - reflexivity.
Defined.

(** ** The loss and the residual *)

Lemma nth_map_lt {A B : Type} (f : A -> B) (l : list A) (n : nat) (d : A)
  (d' : B) :
  (n < length l)%nat -> nth n (map f l) d' = f (nth n l d).
Proof.
  intros H. rewrite (nth_indep _ d' (f d)) by (rewrite length_map; exact H).
  apply map_nth.
Qed.

Lemma square_div (x s : R) : square x / square s = square (x / s).
Proof. unfold square, Rdiv. rewrite Rinv_mult. ring. Qed.

(** The error-weighted squared differences both [calc_loss] and
    [calc_residual] reduce: gathered at in-range indices, they are the
    terms of the specification's sum. *)
Lemma weighted_terms (P N : nat) (T : list (list R)) (c y sigma : list R)
  (m : list Z) :
  shape T P N -> (1 <= P)%nat -> (1 <= length c)%nat ->
  Forall (fun i => (0 <= i < Z.of_nat N)%Z) m ->
  length y = length m -> length sigma = length m ->
  (y_pred <- calc_prediction c T ;;
   real_flux <- np_take y_pred m ;;
   diff <- broadcast2 Rminus real_flux y ;;
   broadcast2 Rdiv (map square diff) (map square sigma))
  = Ok (map (fun j =>
               square ((pred_at c T (Z.to_nat (nth j m 0%Z)) - nth j y 0)
                       / nth j sigma 0))
            (seq 0 (length m))).
Proof.
  intros HT HP Hc Hm Hy Hs.
  destruct (calc_prediction_vector P N T c HT HP Hc) as (v & E & Lv & Nv).
  rewrite E. simpl. unfold np_take. simpl.
  rewrite mapM_in_range by (rewrite Lv; exact Hm). simpl.
  set (rf := map (fun i => nth (Z.to_nat i) v 0) m).
  assert (Lrf : length rf = length m) by apply length_map.
  assert (Ldf : length (map2 Rminus rf y) = length m)
    by (rewrite length_map2; congruence).
  rewrite broadcast2_same by congruence. simpl.
  rewrite broadcast2_same by (rewrite !length_map; congruence).
  f_equal. apply (nth_ext _ _ 0 0).
  - rewrite length_map2; rewrite !length_map, ?length_seq; congruence.
  - intros n Hn.
    rewrite length_map2, length_map, Ldf in Hn
      by (rewrite !length_map; congruence).
    rewrite (nth_map2 Rdiv _ _ n 0 0 0);
      rewrite ?length_map; try congruence.
    rewrite (nth_map_lt square _ n 0 0) by congruence.
    rewrite (nth_map_lt square sigma n 0 0) by congruence.
    rewrite (nth_map2 Rminus _ _ n 0 0 0) by congruence.
    unfold rf. rewrite (nth_map_lt _ m n 0%Z 0) by exact Hn.
    rewrite (nth_map_lt _ (seq 0 (length m)) n 0%nat 0)
      by (rewrite length_seq; exact Hn).
    rewrite seq_nth by exact Hn. simpl.
    rewrite square_div.
    assert (Hin : (0 <= nth n m 0%Z < Z.of_nat N)%Z).
    { apply (proj1 (Forall_forall _ m) Hm). apply nth_In. exact Hn. }
    rewrite Nv by lia. reflexivity.
Qed.

Lemma calc_loss_formula (P N : nat) (T : list (list R)) (c y sigma : list R)
  (m : list Z) (w : R) (L : list nat) :
  shape T P N -> length c = P -> (1 <= P)%nat ->
  Forall (fun i => (0 <= i < Z.of_nat N)%Z) m ->
  length y = length m -> length sigma = length m ->
  Forall (fun i => (i < P)%nat) L ->
  calc_loss c T y sigma m w (Some (map Z.of_nat L))
  = Ok (loss_formula c T y sigma m w L).
Proof.
  intros HT Hc HP Hm Hy Hs HL.
  unfold calc_loss.
  assert (W := weighted_terms P N T c y sigma m HT HP ltac:(lia) Hm Hy Hs).
  destruct (calc_prediction c T) as [yp|]; simpl in W |- *; [|discriminate].
  destruct (np_take yp m) as [rf|]; simpl in W |- *; [|discriminate].
  destruct (broadcast2 Rminus rf y) as [df|]; simpl in W |- *; [|discriminate].
  rewrite W. simpl.
  rewrite mapM_in_range.
  2:{ apply Forall_map. eapply Forall_impl; [|exact HL].
      simpl. intros i Hi. lia. }
  simpl.
  rewrite (np_index_in_range c 0%Z 0) by lia.
  simpl. rewrite !map_map.
  unfold loss_formula, reconstruction_formula, regularization_formula.
  f_equal.
  replace (map (fun x => square (nth (Z.to_nat (Z.of_nat x)) c 0)) L)
    with (map (fun i => square (nth i c 0)) L)
    by (apply map_ext; intros; rewrite Nat2Z.id; reflexivity).
  destruct (Rlt_dec (nth 0 c 0) 0); ring.
Qed.

(** ** The peak of a band *)

Lemma argmax_from_bounded (l : list R) :
  forall best besti i, Forall (fun y => y <= best) l ->
  argmax_from best besti i l = besti.
Proof.
  induction l as [|x l IH]; intros best besti i H; simpl; auto.
  inversion H; subst.
  destruct (Rlt_dec best x); [lra|]. apply IH. assumption.
Qed.

Lemma argmax_from_split (pre : list R) :
  forall best besti i x post,
  best < x -> Forall (fun y => y < x) pre -> Forall (fun y => y <= x) post ->
  argmax_from best besti i (pre ++ x :: post) = (i + length pre)%nat.
Proof.
  induction pre as [|y pre IH]; intros best besti i x post Hb Hpre Hpost;
    simpl.
  - destruct (Rlt_dec best x); [|lra].
    rewrite argmax_from_bounded by assumption. lia.
  - inversion Hpre; subst.
    destruct (Rlt_dec best y); rewrite IH by assumption; lia.
Qed.

Lemma np_argmax_split (pre : list R) (x : R) (post : list R) :
  Forall (fun y => y < x) pre -> Forall (fun y => y <= x) post ->
  np_argmax (pre ++ x :: post) = Ok (length pre).
Proof.
  intros Hpre Hpost. destruct pre as [|y pre]; simpl.
  - rewrite argmax_from_bounded by assumption. reflexivity.
  - inversion Hpre; subst. rewrite argmax_from_split by assumption.
    reflexivity.
Qed.

Lemma np_argmax_peak {A : Type} (f : A -> R) (l pre : list A) (p : A)
  (post : list A) :
  is_peak f l pre p post -> np_argmax (map f l) = Ok (length pre).
Proof.
  intros (-> & Hpre & Hpost).
  rewrite map_app. simpl. rewrite np_argmax_split.
  - rewrite length_map. reflexivity.
  - apply Forall_map. exact Hpre.
  - apply Forall_map. exact Hpost.
Qed.

Lemma is_peak_exists {A : Type} (f : A -> R) (l : list A) :
  l <> [] -> exists pre p post, is_peak f l pre p post.
Proof.
  induction l as [|r l IH]; intros H; [congruence|].
  destruct l as [|r' l].
  - exists [], r, []. repeat split; constructor.
  - destruct IH as (pre & p & post & E & Hpre & Hpost); [discriminate|].
    destruct (Rlt_dec (f r) (f p)) as [Hlt|Hge].
    + exists (r :: pre), p, post. repeat split; auto.
      simpl. rewrite E. reflexivity.
    + exists [], r, (r' :: l). repeat split; auto.
      rewrite E. apply Forall_app. split.
      * eapply Forall_impl; [|exact Hpre]. simpl. intros; lra.
      * constructor; [lra|].
        eapply Forall_impl; [|exact Hpost]. simpl. intros; lra.
Qed.

Lemma is_peak_max {A : Type} (f : A -> R) (l pre : list A) (p : A)
  (post : list A) :
  is_peak f l pre p post ->
  In p l /\ forall r, In r l -> f r <= f p.
Proof.
  intros (-> & Hpre & Hpost). split.
  - apply in_or_app. right. left. reflexivity.
  - intros r Hr. apply in_app_or in Hr. destruct Hr as [Hr|[->|Hr]].
    + apply Rlt_le. revert r Hr. apply Forall_forall. exact Hpre.
    + lra.
    + revert r Hr. apply Forall_forall. exact Hpost.
Qed.

Lemma is_peak_filter {A : Type} (f : A -> R) (keep : A -> bool)
  (l pre : list A) (p : A) (post : list A) :
  is_peak f l pre p post -> keep p = true ->
  is_peak f (filter keep l) (filter keep pre) p (filter keep post).
Proof.
  intros (-> & Hpre & Hpost) Hk. repeat split.
  - rewrite filter_app. simpl. rewrite Hk. reflexivity.
  - apply Forall_forall. intros r Hr. apply filter_In in Hr.
    revert r Hr. intros r [Hr _]. revert r Hr. apply Forall_forall. exact Hpre.
  - apply Forall_forall. intros r Hr. apply filter_In in Hr.
    revert r Hr. intros r [Hr _]. revert r Hr. apply Forall_forall. exact Hpost.
Qed.

(** ** The prediction window and the index map *)

Lemma Rltb_true (x y : R) : Rltb x y = true <-> x < y.
Proof. unfold Rltb. destruct (Rlt_dec x y); split; auto; discriminate. Qed.

Lemma in_prediction_window (band_df : list row) (mid time_bin : R) (N : nat)
  (r : row) :
  In r (prediction_window band_df mid time_bin N) <->
  In r band_df
  /\ mid - time_bin * IZR (Z.of_nat N - 1) / 2 < MJD r
  /\ MJD r < mid + time_bin * IZR (Z.of_nat N - 1) / 2.
Proof.
  unfold prediction_window. rewrite filter_In, andb_true_iff, !Rltb_true.
  tauto.
Qed.

(** A window that keeps a row has positive extent, so its centre lies
    strictly inside it. *)
Lemma window_keeps_centre (band_df : list row) (mid time_bin : R) (N : nat)
  (r : row) :
  In r (prediction_window band_df mid time_bin N) ->
  (Rltb (mid - time_bin * IZR (Z.of_nat N - 1) / 2) mid
   && Rltb mid (mid + time_bin * IZR (Z.of_nat N - 1) / 2))%bool = true.
Proof.
  intros H. apply in_prediction_window in H. destruct H as (_ & H1 & H2).
  apply andb_true_iff. rewrite !Rltb_true. lra.
Qed.

Lemma np_around_between (x : R) (a b : Z) :
  IZR a <= x <= IZR b -> (a <= np_around x <= b)%Z.
Proof.
  intros [Ha Hb]. unfold np_around.
  destruct (base_Int_part x) as [Hf1 Hf2].
  set (f := Int_part x) in *.
  assert (Haf : (a <= f)%Z).
  { apply Z.lt_succ_r. apply lt_IZR. rewrite succ_IZR. lra. }
  assert (Hfb : (f <= b)%Z) by (apply le_IZR; lra).
  assert (Hup : 1 / 2 <= x - IZR f -> (f + 1 <= b)%Z).
  { intros Hd. apply Z.le_succ_l. apply lt_IZR. lra. }
  destruct (Rlt_dec (x - IZR f) (1 / 2)); [lia|].
  destruct (Rlt_dec (1 / 2) (x - IZR f)); [split; [lia|apply Hup; lra]|].
  destruct (Z.even f); [lia|]. split; [lia|apply Hup; lra].
Qed.

(** Inside the window of a positive time bin, the rounded grid position
    lies on the grid. *)
Lemma window_index_in_range (mid time_bin t : R) (N : nat) :
  0 < time_bin ->
  mid - time_bin * IZR (Z.of_nat N - 1) / 2 < t ->
  t < mid + time_bin * IZR (Z.of_nat N - 1) / 2 ->
  (0 <= np_around ((t - mid) / time_bin + IZR (Z.of_nat N - 1) / 2)
   <= Z.of_nat N - 1)%Z.
Proof.
  intros Htb H1 H2. apply np_around_between.
  set (h := IZR (Z.of_nat N - 1)) in *.
  assert (E : (t - mid) / time_bin + h / 2
              = (t - (mid - time_bin * h / 2)) / time_bin).
  { field. lra. }
  assert (E' : h - ((t - mid) / time_bin + h / 2)
               = (mid + time_bin * h / 2 - t) / time_bin).
  { field. lra. }
  assert (P1 : 0 < (t - (mid - time_bin * h / 2)) / time_bin).
  { apply Rdiv_lt_0_compat; lra. }
  assert (P2 : 0 < (mid + time_bin * h / 2 - t) / time_bin).
  { apply Rdiv_lt_0_compat; lra. }
  simpl. lra.
Qed.

Lemma dates_index_in_range (band_df : list row) (mid time_bin : R) (N : nat) :
  0 < time_bin ->
  Forall (fun i => (0 <= i <= Z.of_nat N - 1)%Z)
    (dates_to_arr_index (prediction_window band_df mid time_bin N)
       mid time_bin N).
Proof.
  intros Htb. unfold dates_to_arr_index. apply Forall_map.
  apply Forall_forall. intros r Hr.
  apply in_prediction_window in Hr. destruct Hr as (_ & H1 & H2).
  apply window_index_in_range; assumption.
Qed.

Lemma fit_gate_true (max_flux flux_lim : R) (band_df : list row) :
  fit_gate max_flux flux_lim band_df = true <->
  flux_lim < max_flux /\ (2 <= length band_df)%nat.
Proof.
  unfold fit_gate. rewrite andb_true_iff, Rltb_true, Nat.leb_le. tauto.
Qed.

(** A window with a row in it still has the band's peak as its peak. *)
Lemma window_peak (band_df pre : list row) (p : row) (post : list row)
  (time_bin : R) (N : nat) :
  is_peak FLUXCAL band_df pre p post ->
  (1 <= length (prediction_window band_df (MJD p) time_bin N))%nat ->
  exists wpre wpost,
    is_peak FLUXCAL (prediction_window band_df (MJD p) time_bin N)
      wpre p wpost.
Proof.
  intros Hp Hlen.
  destruct (prediction_window band_df (MJD p) time_bin N) as [|r w] eqn:E;
    [simpl in Hlen; lia|].
  assert (Hr : In r (prediction_window band_df (MJD p) time_bin N))
    by (rewrite E; left; reflexivity).
  apply window_keeps_centre in Hr.
  rewrite <- E. unfold prediction_window.
  eexists _, _. apply is_peak_filter; [exact Hp|exact Hr].
Qed.

(** ** Unfolding predict_band_features along its branches *)

Section Branches.

Variable minimize :
  (list R -> res R) -> list R -> list (R * R) -> res (list R).

Lemma predict_band_features_empty (pc0 : list R) (pcs' : list (list R))
  (time_bin flux_lim : R) (lvi : option (list Z)) :
  predict_band_features minimize [] (pc0 :: pcs') time_bin flux_lim lvi
  = Ok (repeat 0 (length (pc0 :: pcs')) ++ [0; 0]).
Proof.
  unfold predict_band_features.
  rewrite (np_index_in_range (pc0 :: pcs') 0%Z pc0) by (simpl length; lia).
  cbn [bind length Nat.eqb].
  rewrite half_feature_names, repeat_plus_two. reflexivity.
Qed.

Lemma predict_band_features_peak (band_df pre : list row) (p : row)
  (post : list row) (pc0 : list R) (pcs' : list (list R))
  (time_bin flux_lim : R) (lvi : option (list Z)) :
  is_peak FLUXCAL band_df pre p post ->
  predict_band_features minimize band_df (pc0 :: pcs') time_bin flux_lim lvi
  = if fit_gate (FLUXCAL p) flux_lim
         (prediction_window band_df (MJD p) time_bin (length pc0))
    then fit_band minimize
           (prediction_window band_df (MJD p) time_bin (length pc0))
           (pc0 :: pcs') (length (pc0 :: pcs')) (length pc0)
           (FLUXCAL p) (MJD p) time_bin lvi
    else Ok (repeat 0 (length (pc0 :: pcs')) ++ [0; 0]).
Proof.
  intros Hp. unfold predict_band_features.
  rewrite (np_index_in_range (pc0 :: pcs') 0%Z pc0) by (simpl length; lia).
  cbn [bind Z.to_nat nth].
  rewrite (np_argmax_peak FLUXCAL band_df pre p post Hp).
  destruct Hp as (-> & _ & _).
  replace (Nat.eqb (length (pre ++ p :: post)) 0) with false
    by (rewrite length_app; simpl; symmetry; apply Nat.eqb_neq; lia).
  cbn [bind]. rewrite !iloc_split. cbn [bind]. reflexivity.
Qed.

(** The fit branch on a table whose peak is [p]: the objective handed to
    the optimizer and what is built from its result. *)
Lemma fit_band_peak (w wpre : list row) (p : row) (wpost : list row)
  (pcs : list (list R)) (P N : nat) (max_flux mid time_bin : R)
  (lvi : option (list Z)) :
  is_peak FLUXCAL w wpre p wpost ->
  fit_band minimize w pcs P N max_flux mid time_bin lvi
  = (x <- minimize
            (fun c =>
               calc_loss c pcs
                 (map (fun f => f / max_flux) (map FLUXCAL w))
                 (map (fun e => e / max_flux) (map FLUXCALERR w))
                 (dates_to_arr_index w mid time_bin N)
                 (square (max_flux / FLUXCALERR p)) lvi)
            (map (fun z => z + 1 / 2) (repeat 0 P))
            (repeat (-2, 2) P) ;;
     residual <-
       calc_residual x pcs
         (map (fun f => f / max_flux) (map FLUXCAL w))
         (map (fun e => e / max_flux) (map FLUXCALERR w))
         (dates_to_arr_index w mid time_bin N) ;;
     Ok (x ++ [residual; max_flux])).
Proof.
  intros Hp. unfold fit_band.
  rewrite (np_argmax_peak FLUXCAL w wpre p wpost Hp).
  destruct Hp as (-> & _ & _).
  cbn [bind]. rewrite iloc_split. cbn [bind]. reflexivity.
Qed.

End Branches.

(** ** The empty band and the eligibility gate *)

(** C6. For a band with zero observations and a template matrix with at
    least one component, [predict_band_features] returns, without raising,
    the list of P zeros followed by two zeros. *)
Theorem predict_band_features_empty_band
  (minimize : (list R -> res R) -> list R -> list (R * R) -> res (list R))
  (pcs : list (list R)) (time_bin flux_lim : R) (lvi : option (list Z)) :
  pcs <> [] ->
  predict_band_features minimize [] pcs time_bin flux_lim lvi
  = Ok (repeat 0 (length pcs) ++ [0; 0]).
Proof.
  intros H. destruct pcs as [|pc0 pcs']; [congruence|].
  apply predict_band_features_empty.
Qed.

Lemma predict_band_features_empty_band_witness :
  predict_band_features minimize_at_x0 [] [[1; 2]; [3; 4]; [5; 6]]
    default_time_bin default_flux_lim default_low_var_indices
  = Ok ([0; 0; 0] ++ [0; 0]).
Proof.
  apply (predict_band_features_empty_band minimize_at_x0
           [[1; 2]; [3; 4]; [5; 6]]).
  discriminate.
Defined.

(** C1. For a nonempty band (and a template matrix with at least one
    component), let [p] be the first row of maximal flux of the band before
    windowing and [w] the rows left by the window centred on [p].  A fit is
    attempted if and only if [flux_lim < FLUXCAL p] and [w] has at least two
    rows; it is then the fit branch that produces the result, and in every
    other case the result is P zero coefficients, residual 0 and peak
    flux 0, whatever the data and the optimizer. *)
Theorem predict_band_features_gate (band_df : list row)
  (pcs : list (list R)) (time_bin flux_lim : R) (lvi : option (list Z)) :
  band_df <> [] -> pcs <> [] ->
  exists pre p post,
    is_peak FLUXCAL band_df pre p post
    /\ (forall r, In r band_df -> FLUXCAL r <= FLUXCAL p)
    /\ let N := length (hd [] pcs) in
       let w := prediction_window band_df (MJD p) time_bin N in
       (fit_attempted band_df pcs time_bin flux_lim lvi
        <-> flux_lim < FLUXCAL p /\ (2 <= length w)%nat)
       /\ (forall minimize,
             flux_lim < FLUXCAL p /\ (2 <= length w)%nat ->
             predict_band_features minimize band_df pcs time_bin flux_lim lvi
             = fit_band minimize w pcs (length pcs) N (FLUXCAL p) (MJD p)
                 time_bin lvi)
       /\ (forall minimize,
             ~ (flux_lim < FLUXCAL p /\ (2 <= length w)%nat) ->
             predict_band_features minimize band_df pcs time_bin flux_lim lvi
             = Ok (repeat 0 (length pcs) ++ [0; 0])).
Proof.
  intros Hband Hpcs.
  destruct pcs as [|pc0 pcs']; [congruence|].
  destruct (is_peak_exists FLUXCAL band_df Hband) as (pre & p & post & Hp).
  exists pre, p, post. split; [exact Hp|].
  split; [apply (is_peak_max FLUXCAL band_df pre p post Hp)|].
  cbv zeta. cbn [hd].
  set (N := length pc0).
  set (w := prediction_window band_df (MJD p) time_bin N).
  assert (Hfit : forall minimize,
             flux_lim < FLUXCAL p /\ (2 <= length w)%nat ->
             predict_band_features minimize band_df (pc0 :: pcs') time_bin
               flux_lim lvi
             = fit_band minimize w (pc0 :: pcs') (length (pc0 :: pcs')) N
                 (FLUXCAL p) (MJD p) time_bin lvi).
  { intros minimize Hg.
    rewrite (predict_band_features_peak minimize band_df pre p post) by exact Hp.
    fold N. fold w. apply fit_gate_true in Hg. rewrite Hg. reflexivity. }
  assert (Hzero : forall minimize,
             ~ (flux_lim < FLUXCAL p /\ (2 <= length w)%nat) ->
             predict_band_features minimize band_df (pc0 :: pcs') time_bin
               flux_lim lvi
             = Ok (repeat 0 (length (pc0 :: pcs')) ++ [0; 0])).
  { intros minimize Hg.
    rewrite (predict_band_features_peak minimize band_df pre p post) by exact Hp.
    fold N. fold w.
    destruct (fit_gate (FLUXCAL p) flux_lim w) eqn:G; [|reflexivity].
    apply fit_gate_true in G. contradiction. }
  split; [|split; assumption].
  split.
  - intros Hatt.
    destruct (fit_gate (FLUXCAL p) flux_lim w) eqn:G.
    + apply fit_gate_true. exact G.
    + assert (Hn : ~ (flux_lim < FLUXCAL p /\ (2 <= length w)%nat)).
      { intros Hg. apply fit_gate_true in Hg. congruence. }
      specialize (Hatt ValueError). rewrite (Hzero _ Hn) in Hatt.
      discriminate.
  - intros Hg e. rewrite (Hfit _ Hg).
    destruct (window_peak band_df pre p post time_bin N Hp)
      as (wpre & wpost & Hw); [fold w; lia|].
    fold w in Hw.
    rewrite (fit_band_peak _ w wpre p wpost) by exact Hw.
    reflexivity.
Qed.

Lemma predict_band_features_gate_witness :
  exists pre p post,
    is_peak FLUXCAL example_band pre p post
    /\ (forall r, In r example_band -> FLUXCAL r <= FLUXCAL p)
    /\ let N := length (hd [] example_pcs) in
       let w := prediction_window example_band (MJD p) default_time_bin N in
       (fit_attempted example_band example_pcs default_time_bin
          default_flux_lim default_low_var_indices
        <-> default_flux_lim < FLUXCAL p /\ (2 <= length w)%nat)
       /\ (forall minimize,
             default_flux_lim < FLUXCAL p /\ (2 <= length w)%nat ->
             predict_band_features minimize example_band example_pcs
               default_time_bin default_flux_lim default_low_var_indices
             = fit_band minimize w example_pcs (length example_pcs) N
                 (FLUXCAL p) (MJD p) default_time_bin
                 default_low_var_indices)
       /\ (forall minimize,
             ~ (default_flux_lim < FLUXCAL p /\ (2 <= length w)%nat) ->
             predict_band_features minimize example_band example_pcs
               default_time_bin default_flux_lim default_low_var_indices
             = Ok (repeat 0 (length example_pcs) ++ [0; 0])).
Proof.
  apply (predict_band_features_gate example_band example_pcs
           default_time_bin default_flux_lim default_low_var_indices);
    discriminate.
Defined.

(** ** The fit never raises on well-formed input *)

Lemma Forall_index_lt (N : nat) (m : list Z) :
  Forall (fun i => (0 <= i <= Z.of_nat N - 1)%Z) m ->
  Forall (fun i => (0 <= i < Z.of_nat N)%Z) m.
Proof. apply Forall_impl. intros i Hi. lia. Qed.

Lemma calc_loss_ok (P N : nat) (T : list (list R)) (c y sigma : list R)
  (m : list Z) (w : R) (lvi : option (list Z)) :
  shape T P N -> length c = P -> (1 <= P)%nat ->
  Forall (fun i => (0 <= i < Z.of_nat N)%Z) m ->
  length y = length m -> length sigma = length m ->
  valid_indices P lvi ->
  exists v, calc_loss c T y sigma m w lvi = Ok v.
Proof.
  intros HT Hc HP Hm Hy Hs HL.
  unfold calc_loss.
  assert (W := weighted_terms P N T c y sigma m HT HP ltac:(lia) Hm Hy Hs).
  destruct (calc_prediction c T) as [yp|]; simpl in W |- *; [|discriminate].
  destruct (np_take yp m) as [rf|]; simpl in W |- *; [|discriminate].
  destruct (broadcast2 Rminus rf y) as [df|]; simpl in W |- *; [|discriminate].
  rewrite W. simpl.
  destruct (np_index_valid c 0%Z) as [c0 E0]; [lia|].
  destruct lvi as [idx|]; simpl in HL |- *.
  - destruct (mapM_valid c idx) as [sel Esel]; [rewrite Hc; exact HL|].
    rewrite Esel. simpl. rewrite E0. simpl. eauto.
  - rewrite E0. simpl. eauto.
Qed.

Lemma calc_residual_ok (P N : nat) (T : list (list R)) (c y sigma : list R)
  (m : list Z) :
  shape T P N -> length c = P -> (1 <= P)%nat ->
  Forall (fun i => (0 <= i < Z.of_nat N)%Z) m ->
  length y = length m -> length sigma = length m ->
  exists v, calc_residual c T y sigma m = Ok v.
Proof.
  intros HT Hc HP Hm Hy Hs.
  unfold calc_residual.
  assert (W := weighted_terms P N T c y sigma m HT HP ltac:(lia) Hm Hy Hs).
  destruct (calc_prediction c T) as [yp|]; simpl in W |- *; [|discriminate].
  destruct (np_take yp m) as [rf|]; simpl in W |- *; [|discriminate].
  destruct (broadcast2 Rminus rf y) as [df|]; simpl in W |- *; [|discriminate].
  rewrite W. simpl. eauto.
Qed.

Lemma length_dates_to_arr_index (w : list row) (mid time_bin : R) (N : nat) :
  length (dates_to_arr_index w mid time_bin N) = length w.
Proof. apply length_map. Qed.

Section Totality.

Variable minimize :
  (list R -> res R) -> list R -> list (R * R) -> res (list R).
Hypothesis minimize_ok : minimize_returns minimize.

Lemma predict_band_features_ok (band_df : list row) (pcs : list (list R))
  (P N : nat) (time_bin flux_lim : R) (lvi : option (list Z)) :
  shape pcs P N -> (1 <= P)%nat -> 0 < time_bin -> valid_indices P lvi ->
  exists features,
    predict_band_features minimize band_df pcs time_bin flux_lim lvi
    = Ok features
    /\ length features = (P + 2)%nat.
Proof.
  intros HT HP Htb HL.
  assert (HT' := HT). destruct HT' as [HlenP HN].
  destruct pcs as [|pc0 pcs']; [simpl in HlenP; lia|].
  assert (HN0 : length pc0 = N) by (inversion HN; assumption).
  assert (Hz : length (repeat 0 (length (pc0 :: pcs')) ++ [0; 0])
               = (P + 2)%nat).
  { rewrite length_app, repeat_length, HlenP. reflexivity. }
  destruct band_df as [|r0 band'] eqn:Eband.
  { rewrite predict_band_features_empty. eauto. }
  rewrite <- Eband.
  destruct (is_peak_exists FLUXCAL band_df) as (pre & p & post & Hp);
    [rewrite Eband; discriminate|].
  rewrite (predict_band_features_peak minimize band_df pre p post)
    by exact Hp.
  rewrite HN0.
  set (w := prediction_window band_df (MJD p) time_bin N).
  destruct (fit_gate (FLUXCAL p) flux_lim w) eqn:G; [|eauto].
  apply fit_gate_true in G. destruct G as [_ Hw2].
  destruct (window_peak band_df pre p post time_bin N Hp)
    as (wpre & wpost & Hw); [fold w; lia|].
  fold w in Hw.
  rewrite (fit_band_peak minimize w wpre p wpost) by exact Hw.
  assert (Hm : Forall (fun i => (0 <= i < Z.of_nat N)%Z)
                 (dates_to_arr_index w (MJD p) time_bin N)).
  { apply Forall_index_lt. apply dates_index_in_range. exact Htb. }
  set (x0 := map (fun z => z + 1 / 2) (repeat 0 (length (pc0 :: pcs')))).
  assert (Hx0 : length x0 = P).
  { unfold x0. rewrite length_map, repeat_length. exact HlenP. }
  match goal with
  | |- context [minimize ?f x0 ?b] =>
      destruct (proj2 minimize_ok f x0 b) as (x & Ex);
        [|assert (Lx := proj1 minimize_ok f x0 b x Ex)]
  end.
  { intros c Hc. apply (calc_loss_ok P N); auto;
      rewrite ?length_map, ?length_dates_to_arr_index; congruence. }
  rewrite Ex. cbn [bind].
  destruct (calc_residual_ok P N (pc0 :: pcs') x
              (map (fun f => f / FLUXCAL p) (map FLUXCAL w))
              (map (fun e => e / FLUXCAL p) (map FLUXCALERR w))
              (dates_to_arr_index w (MJD p) time_bin N)) as [rsd Er]; auto;
    rewrite ?length_map, ?length_dates_to_arr_index; try congruence.
  rewrite Er. cbn [bind]. eexists. split; [reflexivity|].
  rewrite length_app. simpl. lia.
Qed.

(** Whatever branch produced it, a returned feature list has one entry
    per template and two more. *)
Lemma predict_band_features_length_of_ok (band_df : list row)
  (pcs : list (list R)) (time_bin flux_lim : R) (lvi : option (list Z))
  (features : list R) :
  predict_band_features minimize band_df pcs time_bin flux_lim lvi
  = Ok features ->
  length features = (length pcs + 2)%nat.
Proof.
  destruct pcs as [|pc0 pcs']; [discriminate|].
  assert (Hz : length (repeat 0 (length (pc0 :: pcs')) ++ [0; 0])
               = (length (pc0 :: pcs') + 2)%nat).
  { rewrite length_app, repeat_length. reflexivity. }
  destruct band_df as [|r0 band'] eqn:Eband.
  { rewrite predict_band_features_empty. intros H. inversion H. exact Hz. }
  rewrite <- Eband.
  destruct (is_peak_exists FLUXCAL band_df) as (pre & p & post & Hp);
    [rewrite Eband; discriminate|].
  rewrite (predict_band_features_peak minimize band_df pre p post)
    by exact Hp.
  set (N := length pc0).
  set (w := prediction_window band_df (MJD p) time_bin N).
  destruct (fit_gate (FLUXCAL p) flux_lim w) eqn:G.
  2:{ intros H. inversion H. exact Hz. }
  apply fit_gate_true in G. destruct G as [_ Hw2].
  destruct (window_peak band_df pre p post time_bin N Hp)
    as (wpre & wpost & Hw); [fold w; lia|].
  fold w in Hw.
  rewrite (fit_band_peak minimize w wpre p wpost) by exact Hw.
  match goal with
  | |- context [minimize ?f ?x0 ?b] =>
      destruct (minimize f x0 b) as [x|e] eqn:Ex;
        [assert (Lx := proj1 minimize_ok f x0 b x Ex)|discriminate]
  end.
  cbn [bind].
  destruct (calc_residual x _ _ _ _) as [rsd|e]; [|discriminate].
  cbn [bind]. intros H. inversion H.
  rewrite length_app, Lx, length_map, repeat_length. reflexivity.
Qed.

Lemma all_bands_loop_length_of_ok (pcs : list (list R)) (lc : list row)
  (flux_lim time_bin : R) (filters : list string) :
  forall acc features,
  all_bands_loop minimize acc pcs filters lc flux_lim time_bin = Ok features ->
  length features = (length acc + length filters * (length pcs + 2))%nat.
Proof.
  induction filters as [|band rest IH]; intros acc features; simpl.
  - intros H. inversion H. lia.
  - destruct (predict_band_features minimize _ pcs time_bin flux_lim _)
      as [fs|e] eqn:Efs; [|discriminate].
    cbn [bind]. intros H. apply IH in H.
    apply predict_band_features_length_of_ok in Efs.
    rewrite H, length_app, Efs. lia.
Qed.

Lemma all_bands_loop_ok (pcs : list (list R)) (P N : nat)
  (lc : list row) (flux_lim time_bin : R) (filters : list string) :
  shape pcs P N -> (3 <= P)%nat -> 0 < time_bin ->
  forall acc, exists features,
    all_bands_loop minimize acc pcs filters lc flux_lim time_bin = Ok features
    /\ length features = (length acc + length filters * (P + 2))%nat.
Proof.
  intros HT HP Htb.
  induction filters as [|band rest IH]; intros acc; simpl.
  - exists acc. split; [reflexivity|lia].
  - destruct (predict_band_features_ok
                (filter (fun r => String.eqb (FLT r) band) lc) pcs P N
                time_bin flux_lim (Some [1%Z; 2%Z]) HT) as (fs & Efs & Lfs);
      try lia; try assumption.
    { simpl. repeat constructor; lia. }
    rewrite Efs. cbn [bind].
    destruct (IH (acc ++ fs)) as (out & Eout & Lout).
    exists out. split; [exact Eout|].
    rewrite Lout, length_app, Lfs. lia.
Qed.

End Totality.

Lemma minimize_at_x0_returns : minimize_returns minimize_at_x0.
Proof.
  split.
  - intros f x0 bounds x. unfold minimize_at_x0.
    destruct (f x0); intros H; inversion H; reflexivity.
  - intros f x0 bounds Hf. unfold minimize_at_x0.
    destruct (Hf x0 eq_refl) as [v ->]. eauto.
Qed.

(** ** Shape of the feature list *)

Lemma shape_example_pcs : shape example_pcs 3 5.
Proof. split; [reflexivity|]. repeat constructor. Qed.

Lemma valid_default_indices : valid_indices 3 default_low_var_indices.
Proof. simpl. repeat constructor; lia. Qed.

(** C10 (as amended). For every band table, empty or not, and every
    template matrix of shape (P, N), a list returned by
    [predict_band_features] has exactly P + 2 values, whichever branch
    produced it.  A list is returned when there is at least one template,
    [time_bin] is positive and [low_var_indices] index a vector of length P
    (P >= 3 for the default [[1, 2]]); with fewer templates than the
    indices reach, a band that is fitted raises [IndexError]
    ([two_templates_bright_band_raises]).  The optimizer is assumed to
    return a point of the dimension of its initial guess. *)
Theorem predict_band_features_length
  (minimize : (list R -> res R) -> list R -> list (R * R) -> res (list R))
  (band_df : list row) (pcs : list (list R)) (P N : nat)
  (time_bin flux_lim : R) (lvi : option (list Z)) :
  minimize_returns minimize -> shape pcs P N ->
  (forall features,
     predict_band_features minimize band_df pcs time_bin flux_lim lvi
     = Ok features ->
     length features = (P + 2)%nat)
  /\ ((1 <= P)%nat -> 0 < time_bin -> valid_indices P lvi ->
      exists features,
        predict_band_features minimize band_df pcs time_bin flux_lim lvi
        = Ok features
        /\ length features = (P + 2)%nat).
Proof.
  intros Hmin HT. split.
  - intros features H. destruct HT as [<- _].
    apply (predict_band_features_length_of_ok minimize Hmin band_df pcs
             time_bin flux_lim lvi). exact H.
  - intros HP Htb HL.
    apply (predict_band_features_ok minimize Hmin band_df pcs P N);
      assumption.
Qed.

Lemma predict_band_features_length_witness :
  (forall features,
     predict_band_features minimize_at_x0 example_band example_pcs
       default_time_bin default_flux_lim default_low_var_indices
     = Ok features ->
     length features = (3 + 2)%nat)
  /\ exists features,
       predict_band_features minimize_at_x0 example_band example_pcs
         default_time_bin default_flux_lim default_low_var_indices
       = Ok features
       /\ length features = (3 + 2)%nat.
Proof.
  destruct (predict_band_features_length minimize_at_x0 example_band
              example_pcs 3 5 default_time_bin default_flux_lim
              default_low_var_indices minimize_at_x0_returns
              shape_example_pcs) as [Hlen Hret].
  split; [exact Hlen|].
  apply Hret.
  - lia.
  - unfold default_time_bin. lra.
  - exact valid_default_indices.
Defined.

(** C5. With P = 3, [get_feature_names] is exactly
    [coeff1_g, coeff2_g, coeff3_g, residuo_g, maxflux_g, coeff1_r, coeff2_r,
    coeff3_r, residuo_r, maxflux_r], and for the two bands "g" and "r" the
    assembled feature vector has length exactly 10. *)
Theorem features_g_r_three_components
  (minimize : (list R -> res R) -> list R -> list (R * R) -> res (list R))
  (pcs : list (list R)) (N : nat) (lc : list row) (flux_lim time_bin : R) :
  minimize_returns minimize -> shape pcs 3 N -> 0 < time_bin ->
  get_feature_names 3
  = ["coeff1_g"; "coeff2_g"; "coeff3_g"; "residuo_g"; "maxflux_g";
     "coeff1_r"; "coeff2_r"; "coeff3_r"; "residuo_r"; "maxflux_r"]%string
  /\ exists features,
       extract_features_all_bands minimize pcs ["g"; "r"]%string lc
         flux_lim time_bin = Ok features
       /\ length features = 10%nat.
Proof.
  intros Hmin HT Htb. split; [reflexivity|].
  destruct (all_bands_loop_ok minimize Hmin pcs 3 N lc flux_lim time_bin
              ["g"; "r"]%string HT (le_n 3) Htb []) as (fs & E & L).
  exists fs. split; [exact E|]. rewrite L. reflexivity.
Qed.

Lemma features_g_r_three_components_witness :
  get_feature_names 3
  = ["coeff1_g"; "coeff2_g"; "coeff3_g"; "residuo_g"; "maxflux_g";
     "coeff1_r"; "coeff2_r"; "coeff3_r"; "residuo_r"; "maxflux_r"]%string
  /\ exists features,
       extract_features_all_bands minimize_at_x0 example_pcs
         ["g"; "r"]%string example_band default_flux_lim default_time_bin
       = Ok features
       /\ length features = 10%nat.
Proof.
  apply (features_g_r_three_components minimize_at_x0 example_pcs 5
           example_band default_flux_lim default_time_bin).
  - exact minimize_at_x0_returns.
  - exact shape_example_pcs.
  - unfold default_time_bin. lra.
Defined.

(** C9 (as amended). [get_feature_names] always names the two bands "g" and
    "r", so its list has [2 * (P + 2)] entries whatever the filters are,
    while a list returned by [extract_features_all_bands] has
    [len(filters) * (P + 2)] values: the two lengths agree exactly when
    there are two filters.  A list is returned when P >= 3 (the hard-coded
    [low_var_indices = [1, 2]] being in range) and [time_bin > 0]. *)
Theorem feature_name_and_value_lengths
  (minimize : (list R -> res R) -> list R -> list (R * R) -> res (list R))
  (pcs : list (list R)) (P N : nat) (filters : list string) (lc : list row)
  (flux_lim time_bin : R) :
  minimize_returns minimize -> shape pcs P N ->
  length (get_feature_names P) = (2 * (P + 2))%nat
  /\ (forall features,
        extract_features_all_bands minimize pcs filters lc flux_lim time_bin
        = Ok features ->
        length features = (length filters * (P + 2))%nat
        /\ (length features = length (get_feature_names P)
            <-> length filters = 2%nat))
  /\ ((3 <= P)%nat -> 0 < time_bin ->
      exists features,
        extract_features_all_bands minimize pcs filters lc flux_lim time_bin
        = Ok features).
Proof.
  intros Hmin HT.
  split; [apply length_get_feature_names|]. split.
  - intros features H.
    apply (all_bands_loop_length_of_ok minimize Hmin) in H.
    destruct HT as [HP _]. rewrite HP in H. simpl in H.
    split; [exact H|].
    rewrite H, length_get_feature_names. nia.
  - intros HP Htb.
    destruct (all_bands_loop_ok minimize Hmin pcs P N lc flux_lim time_bin
                filters HT HP Htb []) as (fs & E & _).
    exists fs. exact E.
Qed.

Lemma feature_name_and_value_lengths_witness :
  length (get_feature_names 3) = (2 * (3 + 2))%nat
  /\ (forall features,
        extract_features_all_bands minimize_at_x0 example_pcs
          ["g"; "r"; "i"]%string example_band default_flux_lim
          default_time_bin = Ok features ->
        length features = (length ["g"; "r"; "i"]%string * (3 + 2))%nat
        /\ (length features = length (get_feature_names 3)
            <-> length ["g"; "r"; "i"]%string = 2%nat))
  /\ exists features,
       extract_features_all_bands minimize_at_x0 example_pcs
         ["g"; "r"; "i"]%string example_band default_flux_lim
         default_time_bin = Ok features.
Proof.
  destruct (feature_name_and_value_lengths minimize_at_x0 example_pcs 3 5
              ["g"; "r"; "i"]%string example_band default_flux_lim
              default_time_bin minimize_at_x0_returns shape_example_pcs)
    as (Hnames & Hvalues & Hret).
  split; [exact Hnames|]. split; [exact Hvalues|].
  apply Hret.
  - lia.
  - unfold default_time_bin. lra.
Defined.

(** C9 as stated fails: asked for the single filter "r" on a light curve,
    [extract_features_all_bands] returns 5 values while
    [get_feature_names(3)] has 10 names, and pairing them by position, as
    [extract_features_all_lightcurves] does, raises [IndexError]. *)
Lemma names_values_length_mismatch :
  length (get_feature_names (length example_pcs)) = 10%nat
  /\ (forall minimize,
        extract_features_all_bands minimize example_pcs ["r"%string]
          example_band default_flux_lim default_time_bin
        = Ok [0; 0; 0; 0; 0])
  /\ (forall minimize,
        object_features minimize example_band example_pcs ["r"%string]
        = Raise IndexError).
Proof.
  assert (Hr : filter (fun r => String.eqb (FLT r) "r") example_band = [])
    by reflexivity.
  split; [reflexivity|]. split.
  - intros minimize. unfold extract_features_all_bands.
    cbn [all_bands_loop]. rewrite Hr.
    unfold example_pcs. rewrite predict_band_features_empty. reflexivity.
  - intros minimize. unfold object_features, extract_features_all_bands.
    replace (filter
               (fun r => if Req_dec_T (FLUXCAL r) (FLUXCAL r)
                         then true else false) example_band)
      with example_band.
    2:{ unfold example_band. cbn [filter FLUXCAL].
        repeat match goal with
               | |- context [Req_dec_T ?a ?b] =>
                   destruct (Req_dec_T a b); [|congruence]
               end.
        reflexivity. }
    cbn [all_bands_loop]. rewrite Hr.
    unfold example_pcs. rewrite predict_band_features_empty.
    reflexivity.
Qed.

(** ** Order of the names and of the values *)

Lemma all_bands_loop_concat
  (minimize : (list R -> res R) -> list R -> list (R * R) -> res (list R))
  (pcs : list (list R)) (lc : list row) (flux_lim time_bin : R)
  (filters : list string) :
  forall acc,
  all_bands_loop minimize acc pcs filters lc flux_lim time_bin
  = (per_band <-
       mapM (fun band =>
               predict_band_features minimize
                 (filter (fun r => String.eqb (FLT r) band) lc) pcs time_bin
                 flux_lim (Some [1%Z; 2%Z]))
            filters ;;
     Ok (acc ++ concat per_band)).
Proof.
  induction filters as [|band rest IH]; intros acc; simpl.
  - rewrite app_nil_r. reflexivity.
  - destruct (predict_band_features minimize _ pcs time_bin flux_lim _)
      as [fs|e]; simpl; [|reflexivity].
    rewrite IH.
    destruct (mapM _ rest) as [per_band|e]; simpl; [|reflexivity].
    rewrite app_assoc. reflexivity.
Qed.

(** C4 (as amended). The names are grouped by band across fields: first
    every name of band "g" ([coeff1_ .. coeffP_], [residuo_], [maxflux_]),
    then every name of band "r".  The values are laid out the same way:
    [extract_features_all_bands] is the concatenation, in the order of
    [filters], of each band's feature list. *)
Theorem feature_names_grouped_by_band (npcs : nat)
  (minimize : (list R -> res R) -> list R -> list (R * R) -> res (list R))
  (pcs : list (list R)) (filters : list string) (lc : list row)
  (flux_lim time_bin : R) :
  get_feature_names npcs
  = map (fun i => (i ++ "g")%string) (names_root npcs)
      ++ map (fun i => (i ++ "r")%string) (names_root npcs)
  /\ extract_features_all_bands minimize pcs filters lc flux_lim time_bin
     = (per_band <-
          mapM (fun band =>
                  predict_band_features minimize
                    (filter (fun r => String.eqb (FLT r) band) lc) pcs
                    time_bin flux_lim (Some [1%Z; 2%Z]))
               filters ;;
        Ok (concat per_band)).
Proof.
  split.
  - apply get_feature_names_by_band.
  - unfold extract_features_all_bands. rewrite all_bands_loop_concat.
    reflexivity.
Qed.

(** C4 as stated fails: with P = 3 the second name is [coeff2_g], the next
    field of the same band, where a list grouped by field across bands has
    [coeff1_r]. *)
Lemma feature_names_not_grouped_by_field :
  nth 1 (get_feature_names 3) ""%string = "coeff2_g"%string
  /\ nth 1 (names_grouped_by_field 3) ""%string = "coeff1_r"%string
  /\ get_feature_names 3 <> names_grouped_by_field 3.
Proof.
  split; [reflexivity|]. split; [reflexivity|].
  intros H. vm_compute in H. discriminate.
Qed.

(** ** Index map *)

Ltac decide_Rlt :=
  repeat match goal with
         | |- context [Rlt_dec ?a ?b] =>
             destruct (Rlt_dec a b); try (exfalso; lra)
         end.

Lemma example_window :
  prediction_window example_band (1 / 4) (1 / 4) 5 = example_band.
Proof.
  unfold prediction_window.
  change (IZR (Z.of_nat 5 - 1)) with 4.
  unfold example_band, Rltb. cbn [filter MJD].
  decide_Rlt. reflexivity.
Qed.

Lemma example_peak :
  is_peak FLUXCAL example_band [mkRow 0 "g" 300 10]
    (mkRow (1 / 4) "g" 400 20) [mkRow (1 / 2) "g" 250 10].
Proof.
  split; [reflexivity|].
  split; repeat constructor; simpl; lra.
Qed.

(** C3. With [time_bin > 0], every row kept by the window around the peak
    timestamp [mid] is mapped to an index in [0, N - 1]; hence for every
    coefficient vector the lookup of the predicted curve at the mapped
    indices ([np.take] in [calc_loss] and [calc_residual]) succeeds and the
    [IndexError] branch is not reached.  ([N >= 2] is not needed: for a
    smaller grid the window keeps no row.) *)
Theorem window_indices_in_bounds (band_df : list row) (mid time_bin : R)
  (pcs : list (list R)) (P N : nat) (c : list R) :
  0 < time_bin -> shape pcs P N -> (1 <= P)%nat -> length c = P ->
  let w := prediction_window band_df mid time_bin N in
  let m := dates_to_arr_index w mid time_bin N in
  Forall (fun i => (0 <= i <= Z.of_nat N - 1)%Z) m
  /\ exists y_pred real_flux,
       calc_prediction c pcs = Ok y_pred
       /\ np_take y_pred m = Ok real_flux
       /\ length real_flux = length w.
Proof.
  intros Htb HT HP Hc w m.
  assert (Hm : Forall (fun i => (0 <= i <= Z.of_nat N - 1)%Z) m)
    by (apply dates_index_in_range; exact Htb).
  split; [exact Hm|].
  destruct (calc_prediction_vector P N pcs c HT HP) as (v & E & Lv & _);
    [lia|].
  exists (Vector v), (map (fun i => nth (Z.to_nat i) v 0) m).
  split; [exact E|]. split.
  - unfold np_take. cbn [flat]. apply mapM_in_range.
    rewrite Lv. apply Forall_index_lt. exact Hm.
  - unfold m. rewrite length_map, length_dates_to_arr_index. reflexivity.
Qed.

Lemma window_indices_in_bounds_witness :
  let w := prediction_window example_band (1 / 4) (1 / 4) 5 in
  let m := dates_to_arr_index w (1 / 4) (1 / 4) 5 in
  Forall (fun i => (0 <= i <= Z.of_nat 5 - 1)%Z) m
  /\ exists y_pred real_flux,
       calc_prediction [1 / 2; 1 / 2; 1 / 2] example_pcs = Ok y_pred
       /\ np_take y_pred m = Ok real_flux
       /\ length real_flux = length w.
Proof.
  apply (window_indices_in_bounds example_band (1 / 4) (1 / 4) example_pcs
           3 5 [1 / 2; 1 / 2; 1 / 2]).
  - lra.
  - exact shape_example_pcs.
  - lia.
  - reflexivity.
Defined.

(** ** The objective handed to the optimizer *)

(** When the gate holds, the band's peak [p] is kept by the window, so the
    error bar read at the windowed [argmax] is the peak's own. *)
Lemma predict_band_features_fit
  (minimize : (list R -> res R) -> list R -> list (R * R) -> res (list R))
  (band_df pre : list row) (p : row) (post : list row)
  (pcs : list (list R)) (P N : nat) (time_bin flux_lim : R)
  (lvi : option (list Z)) :
  shape pcs P N -> (1 <= P)%nat ->
  is_peak FLUXCAL band_df pre p post ->
  flux_lim < FLUXCAL p ->
  (2 <= length (prediction_window band_df (MJD p) time_bin N))%nat ->
  predict_band_features minimize band_df pcs time_bin flux_lim lvi
  = (x <- minimize
            (fun c =>
               calc_loss c pcs
                 (map (fun f => f / FLUXCAL p)
                    (map FLUXCAL
                       (prediction_window band_df (MJD p) time_bin N)))
                 (map (fun e => e / FLUXCAL p)
                    (map FLUXCALERR
                       (prediction_window band_df (MJD p) time_bin N)))
                 (dates_to_arr_index
                    (prediction_window band_df (MJD p) time_bin N)
                    (MJD p) time_bin N)
                 (square (FLUXCAL p / FLUXCALERR p)) lvi)
            (map (fun z => z + 1 / 2) (repeat 0 P))
            (repeat (-2, 2) P) ;;
     residual <-
       calc_residual x pcs
         (map (fun f => f / FLUXCAL p)
            (map FLUXCAL (prediction_window band_df (MJD p) time_bin N)))
         (map (fun e => e / FLUXCAL p)
            (map FLUXCALERR (prediction_window band_df (MJD p) time_bin N)))
         (dates_to_arr_index (prediction_window band_df (MJD p) time_bin N)
            (MJD p) time_bin N) ;;
     Ok (x ++ [residual; FLUXCAL p])).
Proof.
  intros [HlenP HN] HP Hp Hfl Hw2.
  destruct pcs as [|pc0 pcs']; [simpl in HlenP; lia|].
  assert (HN0 : length pc0 = N) by (inversion HN; assumption).
  rewrite (predict_band_features_peak minimize band_df pre p post) by exact Hp.
  rewrite HN0, HlenP.
  replace (fit_gate (FLUXCAL p) flux_lim
             (prediction_window band_df (MJD p) time_bin N)) with true
    by (symmetry; apply fit_gate_true; split; assumption).
  destruct (window_peak band_df pre p post time_bin N Hp)
    as (wpre & wpost & Hw); [lia|].
  apply (fit_band_peak minimize _ wpre p wpost). exact Hw.
Qed.

(** C2 (as amended). In exact real arithmetic and for error bars that are
    not zero: for a template matrix of shape (P, N) with P >= 3, a
    coefficient vector [c] of length P, normalized flux [y], errors [sigma]
    and an index map [m] into the grid, [calc_loss] with
    [low_var_indices = [1, 2]] is
    [sum_j ((pred[m_j] - y_j) / sigma_j)^2
     + w * (c_1^2 + c_2^2 + (c_0^2 if c_0 < 0 else 0))]
    with [pred = sum_i c_i * T_i].  And on a band that passes the gate, with
    a peak flux and error bars that are not zero, the weight
    [predict_band_features] puts into the objective is
    [(FLUXCAL p / FLUXCALERR p)^2] for the unnormalized peak row [p]. *)
Theorem calc_loss_regularized_least_squares (pcs : list (list R))
  (P N : nat) :
  (forall (c y sigma : list R) (m : list Z) (w : R),
     shape pcs P N -> (3 <= P)%nat -> length c = P ->
     Forall (fun i => (0 <= i < Z.of_nat N)%Z) m ->
     length y = length m -> length sigma = length m ->
     Forall (fun s => s <> 0) sigma ->
     calc_loss c pcs y sigma m w default_low_var_indices
     = Ok (loss_formula c pcs y sigma m w [1%nat; 2%nat]))
  /\ (forall (minimize :
                (list R -> res R) -> list R -> list (R * R) -> res (list R))
             (band_df pre : list row) (p : row) (post : list row)
             (time_bin flux_lim : R),
        shape pcs P N -> (1 <= P)%nat ->
        is_peak FLUXCAL band_df pre p post ->
        flux_lim < FLUXCAL p ->
        (2 <= length (prediction_window band_df (MJD p) time_bin N))%nat ->
        FLUXCAL p <> 0 ->
        Forall (fun r => FLUXCALERR r <> 0)
          (prediction_window band_df (MJD p) time_bin N) ->
        let win := prediction_window band_df (MJD p) time_bin N in
        let normalized_flux :=
          map (fun f => f / FLUXCAL p) (map FLUXCAL win) in
        let normalized_err_bars :=
          map (fun e => e / FLUXCAL p) (map FLUXCALERR win) in
        let index_map := dates_to_arr_index win (MJD p) time_bin N in
        predict_band_features minimize band_df pcs time_bin flux_lim
          default_low_var_indices
        = (x <- minimize
                  (fun c' =>
                     calc_loss c' pcs normalized_flux normalized_err_bars
                       index_map (square (FLUXCAL p / FLUXCALERR p))
                       default_low_var_indices)
                  (map (fun z => z + 1 / 2) (repeat 0 P))
                  (repeat (-2, 2) P) ;;
           residual <-
             calc_residual x pcs normalized_flux normalized_err_bars
               index_map ;;
           Ok (x ++ [residual; FLUXCAL p]))).
Proof.
  split.
  - intros c y sigma m w HT HP Hc Hm Hy Hs _.
    change default_low_var_indices
      with (Some (map Z.of_nat [1%nat; 2%nat])).
    apply (calc_loss_formula P N); auto; try lia.
    repeat constructor; lia.
  - intros minimize band_df pre p post time_bin flux_lim HT HP Hp Hfl Hw2 _ _.
    cbv zeta.
    apply (predict_band_features_fit minimize band_df pre p post pcs P N);
      auto.
Qed.

Lemma calc_loss_regularized_least_squares_witness :
  calc_loss [1 / 2; 1 / 2; 1 / 2] example_pcs [3 / 4; 1; 5 / 8]
    [1 / 40; 1 / 20; 1 / 40] [1%Z; 2%Z; 3%Z] 400 default_low_var_indices
  = Ok (loss_formula [1 / 2; 1 / 2; 1 / 2] example_pcs [3 / 4; 1; 5 / 8]
          [1 / 40; 1 / 20; 1 / 40] [1%Z; 2%Z; 3%Z] 400 [1%nat; 2%nat])
  /\ let p := mkRow (1 / 4) "g" 400 20 in
     let win := prediction_window example_band (MJD p) (1 / 4) 5 in
     let normalized_flux := map (fun f => f / FLUXCAL p) (map FLUXCAL win) in
     let normalized_err_bars :=
       map (fun e => e / FLUXCAL p) (map FLUXCALERR win) in
     let index_map := dates_to_arr_index win (MJD p) (1 / 4) 5 in
     predict_band_features minimize_at_x0 example_band example_pcs (1 / 4)
       200 default_low_var_indices
     = (x <- minimize_at_x0
               (fun c' =>
                  calc_loss c' example_pcs normalized_flux
                    normalized_err_bars index_map
                    (square (FLUXCAL p / FLUXCALERR p))
                    default_low_var_indices)
               (map (fun z => z + 1 / 2) (repeat 0 3))
               (repeat (-2, 2) 3) ;;
        residual <-
          calc_residual x example_pcs normalized_flux normalized_err_bars
            index_map ;;
        Ok (x ++ [residual; FLUXCAL p])).
Proof.
  destruct (calc_loss_regularized_least_squares example_pcs 3 5)
    as [Hloss Hweight].
  split.
  - apply Hloss.
    + exact shape_example_pcs.
    + lia.
    + reflexivity.
    + repeat constructor; lia.
    + reflexivity.
    + reflexivity.
    + repeat constructor; lra.
  - apply (Hweight minimize_at_x0 example_band [mkRow 0 "g" 300 10]
             (mkRow (1 / 4) "g" 400 20) [mkRow (1 / 2) "g" 250 10]
             (1 / 4) 200).
    + exact shape_example_pcs.
    + lia.
    + exact example_peak.
    + simpl. lra.
    + cbn [MJD]. rewrite example_window. simpl. lia.
    + simpl. lra.
    + cbn [MJD]. rewrite example_window.
      repeat constructor; simpl; lra.
Defined.

(** ** Rescaling flux and error *)

Lemma residual_of_app (x : list R) (r m : R) :
  residual_of (x ++ [r; m]) = r.
Proof.
  unfold residual_of. rewrite length_app. simpl.
  replace (length x + 2 - 2)%nat with (length x) by lia.
  rewrite app_nth2 by lia. rewrite Nat.sub_diag. reflexivity.
Qed.

Lemma rescale_peak (k : R) (band_df pre : list row) (p : row)
  (post : list row) :
  0 < k -> is_peak FLUXCAL band_df pre p post ->
  is_peak FLUXCAL (rescale k band_df) (rescale k pre)
    (mkRow (MJD p) (FLT p) (k * FLUXCAL p) (k * FLUXCALERR p))
    (rescale k post).
Proof.
  intros Hk (-> & Hpre & Hpost). repeat split.
  - unfold rescale. rewrite map_app. reflexivity.
  - unfold rescale. apply Forall_map. eapply Forall_impl; [|exact Hpre].
    simpl. intros r Hr. apply Rmult_lt_compat_l; assumption.
  - unfold rescale. apply Forall_map. eapply Forall_impl; [|exact Hpost].
    simpl. intros r Hr. apply Rmult_le_compat_l; [lra|assumption].
Qed.

Lemma rescale_window (k : R) (band_df : list row) (mid time_bin : R)
  (N : nat) :
  prediction_window (rescale k band_df) mid time_bin N
  = rescale k (prediction_window band_df mid time_bin N).
Proof.
  unfold prediction_window, rescale.
  induction band_df as [|r l IH]; simpl; [reflexivity|].
  rewrite IH.
  destruct (Rltb _ (MJD r) && Rltb (MJD r) _)%bool; reflexivity.
Qed.

Lemma rescale_dates (k : R) (w : list row) (mid time_bin : R) (N : nat) :
  dates_to_arr_index (rescale k w) mid time_bin N
  = dates_to_arr_index w mid time_bin N.
Proof.
  unfold dates_to_arr_index, rescale. rewrite map_map. reflexivity.
Qed.

Lemma rescale_ratio (k a b : R) : 0 < k -> k * a / (k * b) = a / b.
Proof.
  intros Hk. unfold Rdiv. rewrite Rinv_mult.
  replace (k * a * (/ k * / b)) with (k * / k * (a * / b)) by ring.
  rewrite Rinv_r by lra. ring.
Qed.

Lemma rescale_normalized (k M : R) (g : row -> R) (g' : row -> R)
  (w : list row) :
  0 < k ->
  (forall r, g' (mkRow (MJD r) (FLT r) (k * FLUXCAL r) (k * FLUXCALERR r))
             = k * g r) ->
  map (fun f => f / (k * M)) (map g' (rescale k w))
  = map (fun f => f / M) (map g w).
Proof.
  intros Hk Hg. unfold rescale. rewrite !map_map.
  apply map_ext. intros r. rewrite Hg. apply rescale_ratio. exact Hk.
Qed.

(** C7 (as amended). In exact real arithmetic, multiplying every flux and
    flux error of a band by [k > 0] leaves the residual returned by
    [predict_band_features] unchanged whenever the rescaled peak flux is on
    the same side of [flux_lim] as the original one, that is, whenever the
    eligibility gate decides the same way.  In float64 the normalized
    values [(k * f) / (k * max_flux)] and [f / max_flux] agree up to
    rounding only ([F64Facts.normalized_flux_rounds_float64]). *)
Theorem residual_rescale_invariant
  (minimize : (list R -> res R) -> list R -> list (R * R) -> res (list R))
  (band_df : list row) (pcs : list (list R)) (time_bin flux_lim : R)
  (lvi : option (list Z)) (k : R) :
  0 < k ->
  (forall pre p post, is_peak FLUXCAL band_df pre p post ->
                      (flux_lim < k * FLUXCAL p <-> flux_lim < FLUXCAL p)) ->
  res_map residual_of
    (predict_band_features minimize (rescale k band_df) pcs time_bin flux_lim
       lvi)
  = res_map residual_of
      (predict_band_features minimize band_df pcs time_bin flux_lim lvi).
Proof.
  intros Hk Hside.
  destruct pcs as [|pc0 pcs']; [reflexivity|].
  destruct band_df as [|r0 band'] eqn:Eband; [reflexivity|].
  rewrite <- Eband in *.
  destruct (is_peak_exists FLUXCAL band_df) as (pre & p & post & Hp);
    [rewrite Eband; discriminate|].
  specialize (Hside pre p post Hp).
  assert (Hp' := rescale_peak k band_df pre p post Hk Hp).
  rewrite (predict_band_features_peak minimize _ _ _ _ pc0 pcs' time_bin
             flux_lim lvi Hp').
  rewrite (predict_band_features_peak minimize _ _ _ _ pc0 pcs' time_bin
             flux_lim lvi Hp).
  cbn [MJD FLUXCAL]. rewrite rescale_window.
  set (N := length pc0).
  set (w := prediction_window band_df (MJD p) time_bin N).
  assert (Hgate : fit_gate (k * FLUXCAL p) flux_lim (rescale k w)
                  = fit_gate (FLUXCAL p) flux_lim w).
  { unfold fit_gate, rescale. rewrite length_map. f_equal.
    unfold Rltb.
    destruct (Rlt_dec flux_lim (k * FLUXCAL p)),
      (Rlt_dec flux_lim (FLUXCAL p)); tauto. }
  rewrite Hgate.
  destruct (fit_gate (FLUXCAL p) flux_lim w) eqn:G; [|reflexivity].
  apply fit_gate_true in G. destruct G as [_ Hw2].
  destruct (window_peak band_df pre p post time_bin N Hp)
    as (wpre & wpost & Hw); [fold w; lia|].
  fold w in Hw.
  assert (Hw' := rescale_peak k w wpre p wpost Hk Hw).
  rewrite (fit_band_peak minimize _ _ _ _ (pc0 :: pcs')
             (length (pc0 :: pcs')) N (k * FLUXCAL p) (MJD p) time_bin lvi
             Hw').
  rewrite (fit_band_peak minimize _ _ _ _ (pc0 :: pcs')
             (length (pc0 :: pcs')) N (FLUXCAL p) (MJD p) time_bin lvi Hw).
  cbn [FLUXCALERR].
  rewrite (rescale_normalized k (FLUXCAL p) FLUXCAL FLUXCAL w Hk)
    by reflexivity.
  rewrite (rescale_normalized k (FLUXCAL p) FLUXCALERR FLUXCALERR w Hk)
    by reflexivity.
  rewrite rescale_dates, (rescale_ratio k _ _ Hk).
  destruct (minimize _ _ _) as [x|e]; [|reflexivity].
  cbn [bind].
  destruct (calc_residual x _ _ _ _) as [rsd|e]; [|reflexivity].
  unfold res_map. cbn [bind]. rewrite !residual_of_app. reflexivity.
Qed.

Lemma residual_rescale_invariant_witness :
  res_map residual_of
    (predict_band_features minimize_at_x0 (rescale 2 example_band)
       example_pcs default_time_bin default_flux_lim
       default_low_var_indices)
  = res_map residual_of
      (predict_band_features minimize_at_x0 example_band example_pcs
         default_time_bin default_flux_lim default_low_var_indices).
Proof.
  apply (residual_rescale_invariant minimize_at_x0 example_band example_pcs
           default_time_bin default_flux_lim default_low_var_indices 2).
  - lra.
  - intros pre p post Hp.
    destruct (is_peak_max FLUXCAL example_band pre p post Hp) as [_ Hmax].
    assert (H400 : 400 <= FLUXCAL p).
    { apply (Hmax (mkRow (1 / 4) "g" 400 20)). right. left. reflexivity. }
    unfold default_flux_lim. split; intros _; lra.
Defined.

Lemma np_around_IZR (z : Z) : np_around (IZR z) = z.
Proof.
  unfold np_around.
  assert (E : Int_part (IZR z) = z).
  { symmetry. apply Int_part_spec. lra. }
  rewrite E.
  destruct (Rlt_dec (IZR z - IZR z) (1 / 2)); [reflexivity|lra].
Qed.

Lemma pred_at_zero_pcs (c : list R) (n : nat) : pred_at c zero_pcs n = 0.
Proof.
  assert (Z0 : nth n [0; 0; 0; 0; 0] 0 = 0)
    by (do 6 (destruct n as [|n]; [reflexivity|]); reflexivity).
  unfold zero_pcs.
  destruct c as [|c0 [|c1 [|c2 c]]];
    rewrite ?pred_at_cons, ?pred_at_nil_r, ?Z0; try (unfold pred_at; simpl);
    ring.
Qed.

Lemma bright_pair_window :
  prediction_window bright_pair 0 (1 / 4) 5 = bright_pair.
Proof.
  unfold prediction_window.
  change (IZR (Z.of_nat 5 - 1)) with 4.
  unfold bright_pair, Rltb. cbn [filter MJD].
  decide_Rlt. reflexivity.
Qed.

Lemma bright_pair_peak :
  is_peak FLUXCAL bright_pair [] (mkRow 0 "g" 400 400)
    [mkRow (1 / 4) "g" 400 400].
Proof.
  split; [reflexivity|].
  split; repeat constructor; simpl; lra.
Qed.

Lemma bright_pair_index_map :
  dates_to_arr_index bright_pair 0 (1 / 4) 5 = [2%Z; 3%Z].
Proof.
  unfold dates_to_arr_index, bright_pair. cbn [map MJD].
  change (IZR (Z.of_nat 5 - 1)) with 4.
  replace ((0 - 0) / (1 / 4) + 4 / 2) with (IZR 2) by (simpl; field).
  replace ((1 / 4 - 0) / (1 / 4) + 4 / 2) with (IZR 3) by (simpl; field).
  rewrite !np_around_IZR. reflexivity.
Qed.

Lemma shape_zero_pcs : shape zero_pcs 3 5.
Proof. split; [reflexivity|]. repeat constructor. Qed.

(** C7 as stated fails: the pair of observations of flux 400 passes the
    gate ([400 > 200]) and, the templates being zero, its residual is not 0
    whatever the optimizer returns; scaled by [k = 1/4] its peak flux is
    100, the gate closes and the residual is 0. *)
Lemma residual_changes_across_gate :
  0 < 1 / 4
  /\ (forall minimize,
        res_map residual_of
          (predict_band_features minimize (rescale (1 / 4) bright_pair)
             zero_pcs default_time_bin default_flux_lim
             default_low_var_indices) = Ok 0)
  /\ (forall minimize,
        res_map residual_of
          (predict_band_features minimize bright_pair zero_pcs
             default_time_bin default_flux_lim default_low_var_indices)
        <> Ok 0).
Proof.
  split; [lra|]. split; intros minimize.
  - assert (Hp := rescale_peak (1 / 4) _ _ _ _ ltac:(lra) bright_pair_peak).
    unfold zero_pcs.
    rewrite (predict_band_features_peak minimize _ _ _ _ _ _
               default_time_bin default_flux_lim default_low_var_indices Hp).
    replace (fit_gate _ _ _) with false; [reflexivity|].
    unfold fit_gate, Rltb, default_flux_lim. cbn [FLUXCAL].
    destruct (Rlt_dec 200 (1 / 4 * 400)); [lra|reflexivity].
  - rewrite (predict_band_features_fit minimize bright_pair _ _ _ zero_pcs
               3 5 default_time_bin default_flux_lim
               default_low_var_indices shape_zero_pcs ltac:(lia)
               bright_pair_peak).
    2:{ unfold default_flux_lim. simpl. lra. }
    2:{ cbn [MJD]. unfold default_time_bin. rewrite bright_pair_window.
        simpl. lia. }
    cbn [MJD FLUXCAL FLUXCALERR]. unfold default_time_bin.
    rewrite bright_pair_window, bright_pair_index_map.
    destruct (minimize _ _ _) as [x|e]; [|discriminate].
    cbn [bind].
    destruct x as [|x0 x].
    + unfold calc_residual, calc_prediction. simpl. discriminate.
    + unfold calc_residual.
      assert (W := weighted_terms 3 5 zero_pcs (x0 :: x)
                     (map (fun f => f / 400) (map FLUXCAL bright_pair))
                     (map (fun e => e / 400) (map FLUXCALERR bright_pair))
                     [2%Z; 3%Z] shape_zero_pcs ltac:(lia)
                     ltac:(simpl; lia) ltac:(repeat constructor; lia)
                     eq_refl eq_refl).
      destruct (calc_prediction (x0 :: x) zero_pcs) as [yp|];
        simpl in W |- *; [|discriminate].
      destruct (np_take yp [2%Z; 3%Z]) as [rf|]; simpl in W |- *;
        [|discriminate].
      destruct (broadcast2 Rminus rf _) as [df|]; simpl in W |- *;
        [|discriminate].
      rewrite W. unfold res_map. cbn [bind].
      match goal with
      | |- context [x0 :: x ++ ?l] =>
          change (x0 :: x ++ l) with ((x0 :: x) ++ l)
      end.
      rewrite residual_of_app.
      rewrite !pred_at_zero_pcs.
      unfold np_mean, np_sum, square. simpl.
      replace ((0 - 400 / 400) / (400 / 400) * ((0 - 400 / 400) / (400 / 400))
               + ((0 - 400 / 400) / (400 / 400)
                  * ((0 - 400 / 400) / (400 / 400)) + 0)) with 2 by field.
      replace (2 / (1 + 1)) with 1 by field.
      rewrite sqrt_1. intros H. inversion H. lra.
Qed.

(** ** Where the preconditions are needed *)

(** Without any template, [len(pcs[0])] raises before the band is looked
    at. *)
Lemma predict_band_features_no_template
  (minimize : (list R -> res R) -> list R -> list (R * R) -> res (list R))
  (band_df : list row) (time_bin flux_lim : R) (lvi : option (list Z)) :
  predict_band_features minimize band_df [] time_bin flux_lim lvi
  = Raise IndexError.
Proof. reflexivity. Qed.

(** X24. With two templates and two coefficients the default
    [low_var_indices = [1, 2]] reaches past the end of [coeff]: on input
    that is otherwise well formed [calc_loss] raises [IndexError]. *)
Lemma calc_loss_two_components_raises (N : nat) (T : list (list R))
  (c0 c1 : R) (y sigma : list R) (m : list Z) (w : R) :
  shape T 2 N ->
  Forall (fun i => (0 <= i < Z.of_nat N)%Z) m ->
  length y = length m -> length sigma = length m ->
  calc_loss [c0; c1] T y sigma m w default_low_var_indices
  = Raise IndexError.
Proof.
  intros HT Hm Hy Hs. unfold calc_loss.
  assert (W := weighted_terms 2 N T [c0; c1] y sigma m HT ltac:(lia)
                 ltac:(simpl; lia) Hm Hy Hs).
  destruct (calc_prediction [c0; c1] T) as [yp|]; simpl in W |- *;
    [|discriminate].
  destruct (np_take yp m) as [rf|]; simpl in W |- *; [|discriminate].
  destruct (broadcast2 Rminus rf y) as [df|]; simpl in W |- *;
    [|discriminate].
  rewrite W. reflexivity.
Qed.

Lemma calc_loss_two_components_raises_witness :
  calc_loss [1 / 2; 1 / 2] [[1; 2; 3]; [0; 1; 0]] [1; 1] [1 / 10; 1 / 10]
    [0%Z; 2%Z] 100 default_low_var_indices
  = Raise IndexError.
Proof.
  apply (calc_loss_two_components_raises 3 [[1; 2; 3]; [0; 1; 0]]
           (1 / 2) (1 / 2) [1; 1] [1 / 10; 1 / 10] [0%Z; 2%Z] 100).
  - split; [reflexivity|]. repeat constructor.
  - repeat constructor; lia.
  - reflexivity.
  - reflexivity.
Defined.

(** X25. A band with a single observation, however bright, is gated out
    on the count: the result is P zeros, residual 0 and peak flux 0, and the
    optimizer is not consulted. *)
Lemma single_observation_gated_out
  (minimize : (list R -> res R) -> list R -> list (R * R) -> res (list R))
  (r : row) (pc0 : list R) (pcs' : list (list R)) (time_bin flux_lim : R)
  (lvi : option (list Z)) :
  predict_band_features minimize [r] (pc0 :: pcs') time_bin flux_lim lvi
  = Ok (repeat 0 (length (pc0 :: pcs')) ++ [0; 0]).
Proof.
  assert (Hp : is_peak FLUXCAL [r] [] r []).
  { split; [reflexivity|]. split; constructor. }
  rewrite (predict_band_features_peak minimize [r] [] r [] pc0 pcs' time_bin
             flux_lim lvi Hp).
  replace (fit_gate _ _ _) with false; [reflexivity|].
  symmetry. unfold fit_gate. apply andb_false_iff. right.
  apply Nat.leb_gt. unfold prediction_window. cbn [filter].
  destruct (_ && _)%bool; simpl; lia.
Qed.

(** ** Sign and zeros of the loss and of the residual *)

Lemma Forall_map2 {A B C : Type} (f : A -> B -> C) (Q : C -> Prop)
  (u : list A) (v : list B) :
  (forall x y, In x u -> In y v -> Q (f x y)) -> Forall Q (map2 f u v).
Proof.
  revert v; induction u as [|a u IH]; intros [|b v] H; simpl; constructor.
  - apply H; left; reflexivity.
  - apply IH. intros x y Hx Hy. apply H; right; assumption.
Qed.

Lemma broadcast2_Forall (f : R -> R -> R) (Q : R -> Prop) (u v t : list R) :
  (forall x y, In x u -> In y v -> Q (f x y)) ->
  broadcast2 f u v = Ok t -> Forall Q t.
Proof.
  intros H. unfold broadcast2.
  destruct (Nat.eqb (length u) (length v)).
  - intros E. inversion E. apply Forall_map2. exact H.
  - destruct u as [|x [|x' u]]; destruct v as [|y [|y' v]];
      intros E; inversion E; subst; clear E;
      repeat match goal with
             | |- Forall _ [] => constructor
             | |- Forall _ (_ :: _) => constructor
             | |- Forall _ (map _ _) =>
                 apply Forall_map; apply Forall_forall; intros ? ?
             | |- Q _ => apply H; simpl; auto
             end.
Qed.

Lemma np_sum_nonneg (l : list R) : Forall (fun x => 0 <= x) l -> 0 <= np_sum l.
Proof.
  unfold np_sum. induction 1 as [|x l Hx _ IH]; simpl; lra.
Qed.

Lemma square_nonneg (x : R) : 0 <= square x.
Proof. unfold square. nra. Qed.

Lemma div_squares_nonneg (x y : R) : 0 <= square x / square y.
Proof.
  rewrite square_div. apply square_nonneg.
Qed.

Lemma np_sum_squares_nonneg (l : list R) : 0 <= np_sum (map square l).
Proof.
  apply np_sum_nonneg. apply Forall_map. apply Forall_forall.
  intros x _. apply square_nonneg.
Qed.

Lemma weighted_terms_nonneg (a b t : list R) :
  broadcast2 Rdiv (map square a) (map square b) = Ok t ->
  Forall (fun x => 0 <= x) t.
Proof.
  apply broadcast2_Forall. intros x y Hx Hy.
  apply in_map_iff in Hx. destruct Hx as (x' & <- & _).
  apply in_map_iff in Hy. destruct Hy as (y' & <- & _).
  apply div_squares_nonneg.
Qed.

(** X1. Whatever the arrays and indices, a loss that [calc_loss] returns for
    a regularization weight [w >= 0] is not negative. *)
Theorem calc_loss_nonneg (c : list R) (T : list (list R)) (y sigma : list R)
  (m : list Z) (w : R) (lvi : option (list Z)) (v : R) :
  0 <= w -> calc_loss c T y sigma m w lvi = Ok v -> 0 <= v.
Proof.
  intros Hw. unfold calc_loss.
  destruct (calc_prediction c T) as [yp|]; simpl; [|discriminate].
  destruct (np_take yp m) as [rf|]; simpl; [|discriminate].
  destruct (broadcast2 Rminus rf y) as [df|]; simpl; [|discriminate].
  destruct (broadcast2 Rdiv (map square df) (map square sigma)) as [t|] eqn:Et;
    simpl; [|discriminate].
  assert (Ht : 0 <= np_sum t)
    by (apply np_sum_nonneg; eapply weighted_terms_nonneg; exact Et).
  assert (Hreg : forall reg c0, 0 <= reg ->
            0 <= (if Rlt_dec c0 0 then reg + square c0 else reg)).
  { intros reg c0 Hr. assert (S0 := square_nonneg c0).
    destruct (Rlt_dec c0 0); lra. }
  destruct lvi as [idx|]; simpl.
  - destruct (mapM (np_index c) idx) as [sel|]; simpl; [|discriminate].
    destruct (np_index c 0%Z) as [c0|]; simpl; [|discriminate].
    intros E. inversion E.
    specialize (Hreg _ c0 (np_sum_squares_nonneg sel)). nra.
  - destruct (np_index c 0%Z) as [c0|]; simpl; [|discriminate].
    intros E. inversion E.
    specialize (Hreg 0 c0 (Rle_refl 0)). nra.
Qed.

Lemma calc_loss_nonneg_witness :
  0 <= loss_formula [1 / 2; 1 / 2; 1 / 2] example_pcs [3 / 4; 1; 5 / 8]
         [1 / 40; 1 / 20; 1 / 40] [1%Z; 2%Z; 3%Z] 400 [1%nat; 2%nat].
Proof.
  apply (calc_loss_nonneg [1 / 2; 1 / 2; 1 / 2] example_pcs [3 / 4; 1; 5 / 8]
           [1 / 40; 1 / 20; 1 / 40] [1%Z; 2%Z; 3%Z] 400
           default_low_var_indices).
  - lra.
  - change default_low_var_indices
      with (Some (map Z.of_nat [1%nat; 2%nat])).
    apply (calc_loss_formula 3 5).
    + exact shape_example_pcs.
    + reflexivity.
    + lia.
    + repeat constructor; lia.
    + reflexivity.
    + reflexivity.
    + repeat constructor; lia.
Defined.

Lemma calc_residual_formula (P N : nat) (T : list (list R))
  (c y sigma : list R) (m : list Z) :
  shape T P N -> length c = P -> (1 <= P)%nat ->
  Forall (fun i => (0 <= i < Z.of_nat N)%Z) m ->
  length y = length m -> length sigma = length m ->
  calc_residual c T y sigma m
  = Ok (sqrt (reconstruction_formula c T y sigma m / INR (length m))).
Proof.
  intros HT Hc HP Hm Hy Hs. unfold calc_residual.
  assert (W := weighted_terms P N T c y sigma m HT HP ltac:(lia) Hm Hy Hs).
  destruct (calc_prediction c T) as [yp|]; simpl in W |- *; [|discriminate].
  destruct (np_take yp m) as [rf|]; simpl in W |- *; [|discriminate].
  destruct (broadcast2 Rminus rf y) as [df|]; simpl in W |- *; [|discriminate].
  rewrite W. simpl. unfold np_mean, reconstruction_formula.
  rewrite length_map, length_seq. reflexivity.
Qed.

Lemma reconstruction_formula_nonneg (c : list R) (T : list (list R))
  (y sigma : list R) (m : list Z) :
  0 <= reconstruction_formula c T y sigma m.
Proof.
  unfold reconstruction_formula. apply np_sum_nonneg.
  apply Forall_map. apply Forall_forall. intros j _. apply square_nonneg.
Qed.

Lemma np_sum_zero_all (l : list R) :
  Forall (fun x => 0 <= x) l -> np_sum l = 0 -> Forall (fun x => x = 0) l.
Proof.
  unfold np_sum. induction 1 as [|x l Hx Hl IH]; simpl; intros E;
    constructor.
  - assert (H0 := np_sum_nonneg l Hl). unfold np_sum in H0. lra.
  - apply IH. assert (H0 := np_sum_nonneg l Hl). unfold np_sum in H0. lra.
Qed.

Lemma np_sum_all_zero (l : list R) :
  Forall (fun x => x = 0) l -> np_sum l = 0.
Proof.
  unfold np_sum. induction 1 as [|x l Hx _ IH]; simpl; lra.
Qed.

Lemma INR_length_pos {A : Type} (l : list A) :
  (1 <= length l)%nat -> 0 < INR (length l).
Proof. intros H. apply lt_0_INR. lia. Qed.

(** X2. On well-formed input with error bars that are not zero, the
    residual is exactly 0 if and only if the predicted curve passes through
    every observation: [pred[m_j] = y_j] for every [j]. *)
Theorem calc_residual_zero_iff_exact_fit (P N : nat) (T : list (list R))
  (c y sigma : list R) (m : list Z) :
  shape T P N -> length c = P -> (1 <= P)%nat ->
  Forall (fun i => (0 <= i < Z.of_nat N)%Z) m ->
  length y = length m -> length sigma = length m ->
  (1 <= length m)%nat ->
  Forall (fun s => s <> 0) sigma ->
  calc_residual c T y sigma m = Ok 0
  <-> forall j, (j < length m)%nat ->
                pred_at c T (Z.to_nat (nth j m 0%Z)) = nth j y 0.
Proof.
  intros HT Hc HP Hm Hy Hs HM Hsig.
  rewrite (calc_residual_formula P N) by assumption.
  assert (HMpos := INR_length_pos m HM).
  assert (Hrec := reconstruction_formula_nonneg c T y sigma m).
  assert (Hterms :
    reconstruction_formula c T y sigma m = 0
    <-> forall j, (j < length m)%nat ->
                  pred_at c T (Z.to_nat (nth j m 0%Z)) = nth j y 0).
  { unfold reconstruction_formula. split.
    - intros E j Hj.
      apply np_sum_zero_all in E.
      2:{ apply Forall_map. apply Forall_forall. intros; apply square_nonneg. }
      rewrite Forall_map, Forall_forall in E.
      specialize (E j ltac:(apply in_seq; lia)).
      assert (Hsj : nth j sigma 0 <> 0).
      { apply (proj1 (Forall_forall _ sigma) Hsig). apply nth_In. lia. }
      unfold square in E. apply Rmult_integral in E.
      assert (Hq : (pred_at c T (Z.to_nat (nth j m 0%Z)) - nth j y 0)
                   / nth j sigma 0 = 0) by tauto.
      unfold Rdiv in Hq. apply Rmult_integral in Hq.
      destruct Hq as [Hq|Hq]; [lra|].
      exfalso. apply (Rinv_neq_0_compat _ Hsj). exact Hq.
    - intros H. apply np_sum_all_zero. apply Forall_map. apply Forall_forall.
      intros j Hj. apply in_seq in Hj. rewrite H by lia.
      unfold square, Rdiv. ring. }
  rewrite <- Hterms. split.
  - intros E. injection E as E'.
    apply sqrt_eq_0 in E'.
    + unfold Rdiv in E'. apply Rmult_integral in E'.
      destruct E' as [E'|E']; [exact E'|].
      exfalso. apply (Rinv_neq_0_compat (INR (length m))); [lra|exact E'].
    + apply Rmult_le_pos; [exact Hrec|].
      apply Rlt_le. apply Rinv_0_lt_compat. exact HMpos.
  - intros ->. unfold Rdiv. rewrite Rmult_0_l, sqrt_0. reflexivity.
Qed.

Lemma calc_residual_zero_iff_exact_fit_witness :
  calc_residual [1 / 2; 1 / 2; 1 / 2] example_pcs [3 / 4; 1; 5 / 8]
    [1 / 40; 1 / 20; 1 / 40] [1%Z; 2%Z; 3%Z] = Ok 0
  <-> forall j, (j < length [1%Z; 2%Z; 3%Z])%nat ->
                pred_at [1 / 2; 1 / 2; 1 / 2] example_pcs
                  (Z.to_nat (nth j [1%Z; 2%Z; 3%Z] 0%Z))
                = nth j [3 / 4; 1; 5 / 8] 0.
Proof.
  apply (calc_residual_zero_iff_exact_fit 3 5 example_pcs
           [1 / 2; 1 / 2; 1 / 2] [3 / 4; 1; 5 / 8] [1 / 40; 1 / 20; 1 / 40]
           [1%Z; 2%Z; 3%Z]).
  - exact shape_example_pcs.
  - reflexivity.
  - lia.
  - repeat constructor; lia.
  - reflexivity.
  - reflexivity.
  - simpl. lia.
  - repeat constructor; lra.
Defined.

(** X3. In exact real arithmetic, on well-formed input with error bars
    that are not zero, the reconstruction part of the loss is the number of
    observations times the squared residual: with residual [r], [calc_loss]
    is [M * r^2 + w * regularization].  (In float64 the two agree up to
    rounding only.) *)
Theorem calc_loss_from_residual (P N : nat) (T : list (list R))
  (c y sigma : list R) (m : list Z) (w : R) (L : list nat) :
  shape T P N -> length c = P -> (1 <= P)%nat ->
  Forall (fun i => (0 <= i < Z.of_nat N)%Z) m ->
  length y = length m -> length sigma = length m ->
  (1 <= length m)%nat ->
  Forall (fun s => s <> 0) sigma ->
  Forall (fun i => (i < P)%nat) L ->
  exists r,
    calc_residual c T y sigma m = Ok r
    /\ 0 <= r
    /\ calc_loss c T y sigma m w (Some (map Z.of_nat L))
       = Ok (INR (length m) * square r + w * regularization_formula c L).
Proof.
  intros HT Hc HP Hm Hy Hs HM _ HL.
  exists (sqrt (reconstruction_formula c T y sigma m / INR (length m))).
  split; [apply (calc_residual_formula P N); assumption|].
  split; [apply sqrt_pos|].
  rewrite (calc_loss_formula P N) by assumption.
  unfold loss_formula, square. f_equal. f_equal.
  assert (HMpos := INR_length_pos m HM).
  assert (Hrec := reconstruction_formula_nonneg c T y sigma m).
  rewrite sqrt_sqrt.
  - field. lra.
  - apply Rmult_le_pos; [exact Hrec|].
    apply Rlt_le. apply Rinv_0_lt_compat. exact HMpos.
Qed.

Lemma calc_loss_from_residual_witness :
  exists r,
    calc_residual [1 / 2; 1 / 2; 1 / 2] example_pcs [3 / 4; 1; 5 / 8]
      [1 / 40; 1 / 20; 1 / 40] [1%Z; 2%Z; 3%Z] = Ok r
    /\ 0 <= r
    /\ calc_loss [1 / 2; 1 / 2; 1 / 2] example_pcs [3 / 4; 1; 5 / 8]
         [1 / 40; 1 / 20; 1 / 40] [1%Z; 2%Z; 3%Z] 400
         (Some (map Z.of_nat [1%nat; 2%nat]))
       = Ok (INR (length [1%Z; 2%Z; 3%Z]) * square r
             + 400 * regularization_formula [1 / 2; 1 / 2; 1 / 2]
                       [1%nat; 2%nat]).
Proof.
  apply (calc_loss_from_residual 3 5 example_pcs [1 / 2; 1 / 2; 1 / 2]
           [3 / 4; 1; 5 / 8] [1 / 40; 1 / 20; 1 / 40] [1%Z; 2%Z; 3%Z] 400
           [1%nat; 2%nat]).
  - exact shape_example_pcs.
  - reflexivity.
  - lia.
  - repeat constructor; lia.
  - reflexivity.
  - reflexivity.
  - simpl. lia.
  - repeat constructor; lra.
  - repeat constructor; lia.
Defined.

(** ** What a band's features depend on *)

Lemma last_app_two (x : list R) (r m : R) : last (x ++ [r; m]) 0 = m.
Proof.
  change (x ++ [r; m]) with (x ++ [r] ++ [m]).
  rewrite app_assoc. apply last_last.
Qed.

Lemma last_zeros (P : nat) : last (repeat 0 P ++ [0; 0]) 0 = 0.
Proof. apply last_app_two. Qed.

(** X4. The last entry of a returned feature list, the reported peak flux,
    is either 0 (empty or gated-out band) or the largest flux of the band,
    and then it exceeds [flux_lim]. *)
Theorem reported_peak_flux
  (minimize : (list R -> res R) -> list R -> list (R * R) -> res (list R))
  (band_df : list row) (pcs : list (list R)) (time_bin flux_lim : R)
  (lvi : option (list Z)) (features : list R) :
  predict_band_features minimize band_df pcs time_bin flux_lim lvi
  = Ok features ->
  last features 0 = 0
  \/ (flux_lim < last features 0
      /\ (exists r, In r band_df /\ FLUXCAL r = last features 0)
      /\ forall r, In r band_df -> FLUXCAL r <= last features 0).
Proof.
  destruct pcs as [|pc0 pcs']; [discriminate|].
  destruct band_df as [|r0 band'] eqn:Eband.
  { rewrite predict_band_features_empty. intros H. injection H as <-.
    left. exact (last_zeros (length (pc0 :: pcs'))). }
  rewrite <- Eband.
  destruct (is_peak_exists FLUXCAL band_df) as (pre & p & post & Hp);
    [rewrite Eband; discriminate|].
  rewrite (predict_band_features_peak minimize band_df pre p post)
    by exact Hp.
  set (N := length pc0).
  set (w := prediction_window band_df (MJD p) time_bin N).
  destruct (fit_gate (FLUXCAL p) flux_lim w) eqn:G.
  2:{ intros H. injection H as <-. left. exact (last_zeros (length (pc0 :: pcs'))). }
  apply fit_gate_true in G. destruct G as [Hfl Hw2].
  destruct (window_peak band_df pre p post time_bin N Hp)
    as (wpre & wpost & Hw); [fold w; lia|].
  fold w in Hw.
  rewrite (fit_band_peak minimize w wpre p wpost) by exact Hw.
  destruct (minimize _ _ _) as [x|e]; [|discriminate].
  cbn [bind].
  destruct (calc_residual x _ _ _ _) as [rsd|e]; [|discriminate].
  cbn [bind]. intros H. injection H as <-. right.
  rewrite last_app_two.
  destruct (is_peak_max FLUXCAL band_df pre p post Hp) as [Hin Hmax].
  split; [exact Hfl|]. split; [exists p; split; [exact Hin|reflexivity]|].
  exact Hmax.
Qed.

Lemma reported_peak_flux_witness :
  exists features,
    predict_band_features minimize_at_x0 example_band example_pcs
      default_time_bin default_flux_lim default_low_var_indices
    = Ok features
    /\ (last features 0 = 0
        \/ (default_flux_lim < last features 0
            /\ (exists r, In r example_band /\ FLUXCAL r = last features 0)
            /\ forall r, In r example_band -> FLUXCAL r <= last features 0)).
Proof.
  destruct (predict_band_features_ok minimize_at_x0 minimize_at_x0_returns
              example_band example_pcs 3 5 default_time_bin default_flux_lim
              default_low_var_indices shape_example_pcs)
    as (features & E & _).
  - lia.
  - unfold default_time_bin. lra.
  - exact valid_default_indices.
  - exists features. split; [exact E|].
    apply (reported_peak_flux minimize_at_x0 example_band example_pcs
             default_time_bin default_flux_lim default_low_var_indices
             features E).
Defined.

Lemma filter_idem {A : Type} (f : A -> bool) (l : list A) :
  filter f (filter f l) = filter f l.
Proof.
  induction l as [|a l IH]; simpl; [reflexivity|].
  destruct (f a) eqn:E; simpl; rewrite ?E, IH; reflexivity.
Qed.

(** X6. Only the rows inside the prediction window count: dropping every
    row outside the window around the band's peak [p] leaves the features
    of the band unchanged. *)
Theorem features_depend_on_window_only
  (minimize : (list R -> res R) -> list R -> list (R * R) -> res (list R))
  (band_df pre : list row) (p : row) (post : list row)
  (pcs : list (list R)) (time_bin flux_lim : R) (lvi : option (list Z)) :
  is_peak FLUXCAL band_df pre p post ->
  predict_band_features minimize
    (prediction_window band_df (MJD p) time_bin (length (hd [] pcs)))
    pcs time_bin flux_lim lvi
  = predict_band_features minimize band_df pcs time_bin flux_lim lvi.
Proof.
  intros Hp. destruct pcs as [|pc0 pcs']; [reflexivity|].
  cbn [hd]. set (N := length pc0).
  rewrite (predict_band_features_peak minimize band_df pre p post)
    by exact Hp.
  fold N.
  destruct (prediction_window band_df (MJD p) time_bin N) as [|r0 w'] eqn:Ew.
  - rewrite predict_band_features_empty.
    unfold fit_gate. cbn [length Nat.leb]. rewrite andb_false_r.
    reflexivity.
  - rewrite <- Ew.
    destruct (window_peak band_df pre p post time_bin N Hp)
      as (wpre & wpost & Hw); [rewrite Ew; simpl; lia|].
    rewrite (predict_band_features_peak minimize _ wpre p wpost) by exact Hw.
    fold N.
    replace (prediction_window
               (prediction_window band_df (MJD p) time_bin N) (MJD p)
               time_bin N)
      with (prediction_window band_df (MJD p) time_bin N)
      by (unfold prediction_window; rewrite filter_idem; reflexivity).
    reflexivity.
Qed.

Lemma features_depend_on_window_only_witness :
  predict_band_features minimize_at_x0
    (prediction_window example_band (MJD (mkRow (1 / 4) "g" 400 20))
       default_time_bin (length (hd [] example_pcs)))
    example_pcs default_time_bin default_flux_lim default_low_var_indices
  = predict_band_features minimize_at_x0 example_band example_pcs
      default_time_bin default_flux_lim default_low_var_indices.
Proof.
  apply (features_depend_on_window_only minimize_at_x0 example_band
           [mkRow 0 "g" 300 10] (mkRow (1 / 4) "g" 400 20)
           [mkRow (1 / 2) "g" 250 10]).
  exact example_peak.
Defined.

Lemma shift_peak (d : R) (band_df pre : list row) (p : row)
  (post : list row) :
  is_peak FLUXCAL band_df pre p post ->
  is_peak FLUXCAL (shift_time d band_df) (shift_time d pre)
    (mkRow (MJD p + d) (FLT p) (FLUXCAL p) (FLUXCALERR p))
    (shift_time d post).
Proof.
  intros (-> & Hpre & Hpost). repeat split.
  - unfold shift_time. rewrite map_app. reflexivity.
  - unfold shift_time. apply Forall_map. exact Hpre.
  - unfold shift_time. apply Forall_map. exact Hpost.
Qed.

Lemma shift_window (d : R) (band_df : list row) (mid time_bin : R) (N : nat) :
  prediction_window (shift_time d band_df) (mid + d) time_bin N
  = shift_time d (prediction_window band_df mid time_bin N).
Proof.
  unfold prediction_window, shift_time.
  induction band_df as [|r l IH]; simpl; [reflexivity|].
  rewrite IH.
  set (h := time_bin * IZR (Z.of_nat N - 1) / 2).
  replace (Rltb (mid + d - h) (MJD r + d)) with (Rltb (mid - h) (MJD r))
    by (unfold Rltb;
        destruct (Rlt_dec (mid - h) (MJD r)),
          (Rlt_dec (mid + d - h) (MJD r + d)); try reflexivity; lra).
  replace (Rltb (MJD r + d) (mid + d + h)) with (Rltb (MJD r) (mid + h))
    by (unfold Rltb;
        destruct (Rlt_dec (MJD r) (mid + h)),
          (Rlt_dec (MJD r + d) (mid + d + h)); try reflexivity; lra).
  destruct (Rltb (mid - h) (MJD r) && Rltb (MJD r) (mid + h))%bool;
    reflexivity.
Qed.

Lemma shift_dates (d : R) (w : list row) (mid time_bin : R) (N : nat) :
  dates_to_arr_index (shift_time d w) (mid + d) time_bin N
  = dates_to_arr_index w mid time_bin N.
Proof.
  unfold dates_to_arr_index, shift_time. rewrite map_map.
  apply map_ext. intros r. cbn [MJD].
  replace (MJD r + d - (mid + d)) with (MJD r - mid) by ring.
  reflexivity.
Qed.

(** X5. In exact real arithmetic the features of a band do not depend on
    the origin of time: moving every observation date by the same amount
    [d] changes nothing.  (In float64 a row within rounding of the window
    edge can be kept before the shift and dropped after it.) *)
Theorem features_time_shift_invariant
  (minimize : (list R -> res R) -> list R -> list (R * R) -> res (list R))
  (band_df : list row) (pcs : list (list R)) (time_bin flux_lim : R)
  (lvi : option (list Z)) (d : R) :
  predict_band_features minimize (shift_time d band_df) pcs time_bin flux_lim
    lvi
  = predict_band_features minimize band_df pcs time_bin flux_lim lvi.
Proof.
  destruct pcs as [|pc0 pcs']; [reflexivity|].
  destruct band_df as [|r0 band'] eqn:Eband; [reflexivity|].
  rewrite <- Eband.
  destruct (is_peak_exists FLUXCAL band_df) as (pre & p & post & Hp);
    [rewrite Eband; discriminate|].
  assert (Hp' := shift_peak d band_df pre p post Hp).
  rewrite (predict_band_features_peak minimize _ _ _ _ pc0 pcs' time_bin
             flux_lim lvi Hp').
  rewrite (predict_band_features_peak minimize _ _ _ _ pc0 pcs' time_bin
             flux_lim lvi Hp).
  cbn [MJD FLUXCAL]. rewrite shift_window.
  set (N := length pc0).
  set (w := prediction_window band_df (MJD p) time_bin N).
  replace (fit_gate (FLUXCAL p) flux_lim (shift_time d w))
    with (fit_gate (FLUXCAL p) flux_lim w)
    by (unfold fit_gate, shift_time; rewrite length_map; reflexivity).
  destruct (fit_gate (FLUXCAL p) flux_lim w) eqn:G; [|reflexivity].
  apply fit_gate_true in G. destruct G as [_ Hw2].
  destruct (window_peak band_df pre p post time_bin N Hp)
    as (wpre & wpost & Hw); [fold w; lia|].
  fold w in Hw.
  assert (Hw' := shift_peak d w wpre p wpost Hw).
  rewrite (fit_band_peak minimize _ _ _ _ (pc0 :: pcs')
             (length (pc0 :: pcs')) N (FLUXCAL p) (MJD p + d) time_bin lvi
             Hw').
  rewrite (fit_band_peak minimize _ _ _ _ (pc0 :: pcs')
             (length (pc0 :: pcs')) N (FLUXCAL p) (MJD p) time_bin lvi Hw).
  cbn [FLUXCALERR]. rewrite shift_dates.
  replace (map FLUXCAL (shift_time d w)) with (map FLUXCAL w)
    by (unfold shift_time; rewrite map_map; reflexivity).
  replace (map FLUXCALERR (shift_time d w)) with (map FLUXCALERR w)
    by (unfold shift_time; rewrite map_map; reflexivity).
  reflexivity.
Qed.

Lemma scale_peak_flux_app (k : R) (x : list R) (r m : R) :
  scale_peak_flux k (x ++ [r; m]) = x ++ [r; k * m].
Proof.
  unfold scale_peak_flux. rewrite last_app_two.
  change (x ++ [r; m]) with (x ++ [r] ++ [m]).
  rewrite app_assoc, removelast_last, <- app_assoc. reflexivity.
Qed.

Lemma scale_peak_flux_zeros (k : R) (P : nat) :
  scale_peak_flux k (repeat 0 P ++ [0; 0]) = repeat 0 P ++ [0; 0].
Proof. rewrite scale_peak_flux_app, Rmult_0_r. reflexivity. Qed.

(** X7. In exact real arithmetic, multiplying every flux and flux error by
    [k > 0], with the rescaled peak on the same side of [flux_lim], leaves
    the coefficients and the residual as they are and multiplies the
    reported peak flux by [k].  (In float64 the normalized values, and so
    the objective, agree up to rounding only.) *)
Theorem features_rescale
  (minimize : (list R -> res R) -> list R -> list (R * R) -> res (list R))
  (band_df : list row) (pcs : list (list R)) (time_bin flux_lim : R)
  (lvi : option (list Z)) (k : R) :
  0 < k ->
  (forall pre p post, is_peak FLUXCAL band_df pre p post ->
                      (flux_lim < k * FLUXCAL p <-> flux_lim < FLUXCAL p)) ->
  predict_band_features minimize (rescale k band_df) pcs time_bin flux_lim lvi
  = res_map (scale_peak_flux k)
      (predict_band_features minimize band_df pcs time_bin flux_lim lvi).
Proof.
  intros Hk Hside.
  destruct pcs as [|pc0 pcs']; [reflexivity|].
  destruct band_df as [|r0 band'] eqn:Eband.
  { cbn [rescale map]. rewrite predict_band_features_empty.
    unfold res_map. cbn [bind]. rewrite scale_peak_flux_zeros.
    reflexivity. }
  rewrite <- Eband in *.
  destruct (is_peak_exists FLUXCAL band_df) as (pre & p & post & Hp);
    [rewrite Eband; discriminate|].
  specialize (Hside pre p post Hp).
  assert (Hp' := rescale_peak k band_df pre p post Hk Hp).
  rewrite (predict_band_features_peak minimize _ _ _ _ pc0 pcs' time_bin
             flux_lim lvi Hp').
  rewrite (predict_band_features_peak minimize _ _ _ _ pc0 pcs' time_bin
             flux_lim lvi Hp).
  cbn [MJD FLUXCAL]. rewrite rescale_window.
  set (N := length pc0).
  set (w := prediction_window band_df (MJD p) time_bin N).
  assert (Hgate : fit_gate (k * FLUXCAL p) flux_lim (rescale k w)
                  = fit_gate (FLUXCAL p) flux_lim w).
  { unfold fit_gate, rescale. rewrite length_map. f_equal.
    unfold Rltb.
    destruct (Rlt_dec flux_lim (k * FLUXCAL p)),
      (Rlt_dec flux_lim (FLUXCAL p)); tauto. }
  rewrite Hgate.
  destruct (fit_gate (FLUXCAL p) flux_lim w) eqn:G.
  2:{ unfold res_map. cbn [bind]. rewrite scale_peak_flux_zeros.
      reflexivity. }
  apply fit_gate_true in G. destruct G as [_ Hw2].
  destruct (window_peak band_df pre p post time_bin N Hp)
    as (wpre & wpost & Hw); [fold w; lia|].
  fold w in Hw.
  assert (Hw' := rescale_peak k w wpre p wpost Hk Hw).
  rewrite (fit_band_peak minimize _ _ _ _ (pc0 :: pcs')
             (length (pc0 :: pcs')) N (k * FLUXCAL p) (MJD p) time_bin lvi
             Hw').
  rewrite (fit_band_peak minimize _ _ _ _ (pc0 :: pcs')
             (length (pc0 :: pcs')) N (FLUXCAL p) (MJD p) time_bin lvi Hw).
  cbn [FLUXCALERR].
  rewrite (rescale_normalized k (FLUXCAL p) FLUXCAL FLUXCAL w Hk)
    by reflexivity.
  rewrite (rescale_normalized k (FLUXCAL p) FLUXCALERR FLUXCALERR w Hk)
    by reflexivity.
  rewrite rescale_dates, (rescale_ratio k _ _ Hk).
  destruct (minimize _ _ _) as [x|e]; [|reflexivity].
  cbn [bind].
  destruct (calc_residual x _ _ _ _) as [rsd|e]; [|reflexivity].
  unfold res_map. cbn [bind]. rewrite scale_peak_flux_app. reflexivity.
Qed.

Lemma features_rescale_witness :
  predict_band_features minimize_at_x0 (rescale 2 example_band) example_pcs
    default_time_bin default_flux_lim default_low_var_indices
  = res_map (scale_peak_flux 2)
      (predict_band_features minimize_at_x0 example_band example_pcs
         default_time_bin default_flux_lim default_low_var_indices).
Proof.
  apply (features_rescale minimize_at_x0 example_band example_pcs
           default_time_bin default_flux_lim default_low_var_indices 2).
  - lra.
  - intros pre p post Hp.
    destruct (is_peak_max FLUXCAL example_band pre p post Hp) as [_ Hmax].
    assert (H400 : 400 <= FLUXCAL p).
    { apply (Hmax (mkRow (1 / 4) "g" 400 20)). right. left. reflexivity. }
    unfold default_flux_lim. split; intros _; lra.
Defined.

(** ** Across bands *)

Lemma mapM_app {A B : Type} (f : A -> res B) (l1 l2 : list A) :
  mapM f (l1 ++ l2)
  = (a <- mapM f l1 ;; b <- mapM f l2 ;; Ok (a ++ b)).
Proof.
  induction l1 as [|x l1 IH]; simpl.
  - destruct (mapM f l2); reflexivity.
  - destruct (f x) as [y|e]; simpl; [|reflexivity].
    rewrite IH.
    destruct (mapM f l1) as [a|e]; simpl; [|reflexivity].
    destruct (mapM f l2) as [b|e]; simpl; reflexivity.
Qed.

Lemma extract_features_all_bands_app_aux
  (minimize : (list R -> res R) -> list R -> list (R * R) -> res (list R))
  (pcs : list (list R)) (filters1 filters2 : list string) (lc : list row)
  (flux_lim time_bin : R) :
  extract_features_all_bands minimize pcs (filters1 ++ filters2) lc flux_lim
    time_bin
  = (features1 <-
       extract_features_all_bands minimize pcs filters1 lc flux_lim time_bin ;;
     features2 <-
       extract_features_all_bands minimize pcs filters2 lc flux_lim time_bin ;;
     Ok (features1 ++ features2)).
Proof.
  unfold extract_features_all_bands.
  rewrite !all_bands_loop_concat, mapM_app. cbn [app].
  destruct (mapM _ filters1) as [a|e]; simpl; [|reflexivity].
  destruct (mapM _ filters2) as [b|e]; simpl; [|reflexivity].
  rewrite concat_app. reflexivity.
Qed.

(** X8. The features of a list of filters are those of its first part
    followed by those of the rest: the bands are treated one after the
    other, none influencing the next, and the first failure is the one
    reported. *)
Theorem extract_features_all_bands_app
  (minimize : (list R -> res R) -> list R -> list (R * R) -> res (list R))
  (pcs : list (list R)) (filters1 filters2 : list string) (lc : list row)
  (flux_lim time_bin : R) :
  extract_features_all_bands minimize pcs (filters1 ++ filters2) lc flux_lim
    time_bin
  = (features1 <-
       extract_features_all_bands minimize pcs filters1 lc flux_lim time_bin ;;
     features2 <-
       extract_features_all_bands minimize pcs filters2 lc flux_lim time_bin ;;
     Ok (features1 ++ features2)).
Proof. apply extract_features_all_bands_app_aux. Qed.

Lemma filter_none {A : Type} (f : A -> bool) (l : list A) :
  (forall a, In a l -> f a = false) -> filter f l = [].
Proof.
  induction l as [|a l IH]; intros H; simpl; [reflexivity|].
  rewrite (H a) by (left; reflexivity).
  apply IH. intros b Hb. apply H. right. exact Hb.
Qed.

Lemma repeat_add (x : R) (n m : nat) :
  repeat x (n + m) = repeat x n ++ repeat x m.
Proof. apply repeat_app. Qed.

Lemma extract_features_absent_bands_aux
  (minimize : (list R -> res R) -> list R -> list (R * R) -> res (list R))
  (pcs : list (list R)) (filters : list string) (lc : list row)
  (flux_lim time_bin : R) :
  pcs <> [] ->
  (forall band r, In band filters -> In r lc -> FLT r <> band) ->
  extract_features_all_bands minimize pcs filters lc flux_lim time_bin
  = Ok (repeat 0 (length filters * (length pcs + 2))).
Proof.
  intros Hpcs Habs. destruct pcs as [|pc0 pcs']; [congruence|].
  unfold extract_features_all_bands.
  assert (Hgen : forall acc,
    all_bands_loop minimize acc (pc0 :: pcs') filters lc flux_lim time_bin
    = Ok (acc ++ repeat 0 (length filters * (length (pc0 :: pcs') + 2)))).
  { induction filters as [|band rest IH]; intros acc.
    - simpl. rewrite app_nil_r. reflexivity.
    - cbn [all_bands_loop].
      rewrite (filter_none (fun r => String.eqb (FLT r) band) lc).
      2:{ intros r Hr. apply String.eqb_neq.
          apply (Habs band r); [left; reflexivity|exact Hr]. }
      rewrite predict_band_features_empty. cbn [bind].
      rewrite IH by (intros b r Hb Hr; apply Habs; [right|]; assumption).
      rewrite <- app_assoc. f_equal.
      cbn [length Nat.mul]. rewrite repeat_add. f_equal.
      rewrite repeat_add. reflexivity. }
  apply (Hgen []).
Qed.

(** X9. When the light curve has no observation in any of the requested
    bands (an empty light curve in particular), the feature vector is
    [len(filters) * (P + 2)] zeros and the optimizer is never consulted. *)
Theorem extract_features_absent_bands
  (minimize : (list R -> res R) -> list R -> list (R * R) -> res (list R))
  (pcs : list (list R)) (filters : list string) (lc : list row)
  (flux_lim time_bin : R) :
  pcs <> [] ->
  (forall band r, In band filters -> In r lc -> FLT r <> band) ->
  extract_features_all_bands minimize pcs filters lc flux_lim time_bin
  = Ok (repeat 0 (length filters * (length pcs + 2))).
Proof. apply extract_features_absent_bands_aux. Qed.

Lemma extract_features_absent_bands_witness :
  extract_features_all_bands minimize_at_x0 example_pcs ["r"; "i"]%string
    example_band default_flux_lim default_time_bin
  = Ok (repeat 0 (length ["r"; "i"]%string * (length example_pcs + 2))).
Proof.
  apply (extract_features_absent_bands minimize_at_x0 example_pcs
           ["r"; "i"]%string example_band default_flux_lim default_time_bin).
  - discriminate.
  - intros band r Hband Hr.
    destruct Hr as [<-|[<-|[<-|[]]]];
      destruct Hband as [<-|[<-|[]]]; discriminate.
Defined.

(** ** Naming the values of one object *)

Lemma notnan_filter_id (l : list row) :
  filter (fun r => if Req_dec_T (FLUXCAL r) (FLUXCAL r) then true else false)
         l = l.
Proof.
  induction l as [|r l IH]; simpl; [reflexivity|].
  destruct (Req_dec_T (FLUXCAL r) (FLUXCAL r)); [|congruence].
  rewrite IH. reflexivity.
Qed.

Lemma np_index_past_end {A : Type} (l : list A) (i : nat) :
  (length l <= i)%nat -> np_index l (Z.of_nat i) = Raise IndexError.
Proof.
  intros H. unfold np_index.
  replace (Z.of_nat i <? 0)%Z with false by (symmetry; apply Z.ltb_ge; lia).
  replace (Z.of_nat i <? Z.of_nat (length l))%Z with false
    by (symmetry; apply Z.ltb_ge; lia).
  rewrite andb_false_r. reflexivity.
Qed.

Lemma skipn_nth_cons {A : Type} (d : A) (l : list A) :
  forall s, (s < length l)%nat -> skipn s l = nth s l d :: skipn (S s) l.
Proof.
  induction l as [|a l IH]; intros s Hs; simpl in Hs; [lia|].
  destruct s as [|s]; [reflexivity|].
  cbn [skipn nth]. rewrite (IH s) by lia. reflexivity.
Qed.

Lemma pair_by_position_ok (features : list R) (names : list string) :
  forall s, (s + length names <= length features)%nat ->
  mapM (fun p => v <- np_index features (Z.of_nat (fst p)) ;; Ok (snd p, v))
       (combine (seq s (length names)) names)
  = Ok (combine names (firstn (length names) (skipn s features))).
Proof.
  induction names as [|n names IH]; intros s Hs; [reflexivity|].
  cbn [length seq combine mapM fst snd] in *.
  rewrite (np_index_nonneg features s 0) by lia. cbn [bind].
  rewrite IH by lia. cbn [bind].
  rewrite (skipn_nth_cons 0 features s) by lia. reflexivity.
Qed.

Lemma pair_by_position_raises (features : list R) (names : list string) :
  forall s, names <> [] -> (length features < s + length names)%nat ->
  mapM (fun p => v <- np_index features (Z.of_nat (fst p)) ;; Ok (snd p, v))
       (combine (seq s (length names)) names)
  = Raise IndexError.
Proof.
  induction names as [|n names IH]; intros s Hne Hs; [congruence|].
  cbn [length seq combine mapM fst] in *.
  destruct (Nat.lt_ge_cases s (length features)) as [Hlt|Hge].
  - rewrite (np_index_nonneg features s 0) by lia. cbn [bind].
    rewrite IH; [reflexivity| |lia].
    destruct names; [simpl in Hs; lia|discriminate].
  - rewrite np_index_past_end by lia. reflexivity.
Qed.

(** X10. The values of one object are named by position against the ten
    names of [get_feature_names()]: with at least ten values the first ten
    are paired with the names in order (any further value is dropped); with
    fewer the pairing raises [IndexError]. *)
Theorem object_features_by_position
  (minimize : (list R -> res R) -> list R -> list (R * R) -> res (list R))
  (object_lc : list row) (pcs : list (list R)) (filters : list string)
  (features : list R) :
  extract_features_all_bands minimize pcs filters object_lc default_flux_lim
    default_time_bin = Ok features ->
  ((10 <= length features)%nat ->
   object_features minimize object_lc pcs filters
   = Ok (combine (get_feature_names 3) (firstn 10 features)))
  /\ ((length features < 10)%nat ->
      object_features minimize object_lc pcs filters = Raise IndexError).
Proof.
  intros E. unfold object_features. rewrite notnan_filter_id.
  unfold default_flux_lim, default_time_bin in E. rewrite E. cbn [bind].
  unfold enumerate. split; intros Hlen.
  - rewrite pair_by_position_ok by (rewrite length_get_feature_names; lia).
    rewrite length_get_feature_names. reflexivity.
  - apply pair_by_position_raises; [discriminate|].
    rewrite length_get_feature_names. lia.
Qed.

Lemma object_features_by_position_witness :
  ((10 <= length (repeat 0%R (length ["r"; "i"]%string
                            * (length example_pcs + 2))))%nat ->
   object_features minimize_at_x0 example_band example_pcs ["r"; "i"]%string
   = Ok (combine (get_feature_names 3)
           (firstn 10 (repeat 0%R (length ["r"; "i"]%string
                                 * (length example_pcs + 2))))))
  /\ ((length (repeat 0%R (length ["r"; "i"]%string
                         * (length example_pcs + 2))) < 10)%nat ->
      object_features minimize_at_x0 example_band example_pcs
        ["r"; "i"]%string = Raise IndexError).
Proof.
  apply (object_features_by_position minimize_at_x0 example_band example_pcs
           ["r"; "i"]%string).
  apply extract_features_absent_bands_aux.
  - discriminate.
  - intros band r Hband Hr.
    destruct Hr as [<-|[<-|[<-|[]]]];
      destruct Hband as [<-|[<-|[]]]; discriminate.
Defined.

(** X11. With three templates, bands after the second are fitted and then
    left out: the named features of an object for the filters
    [b1, b2, ...] are those for [b1, b2]. *)
Theorem object_features_keeps_two_bands
  (minimize : (list R -> res R) -> list R -> list (R * R) -> res (list R))
  (object_lc : list row) (pcs : list (list R)) (N : nat)
  (b1 b2 : string) (more : list string) :
  minimize_returns minimize -> shape pcs 3 N ->
  object_features minimize object_lc pcs (b1 :: b2 :: more)
  = object_features minimize object_lc pcs [b1; b2].
Proof.
  intros Hmin HT.
  assert (Htb : 0 < 1 / 4) by lra.
  destruct (all_bands_loop_ok minimize Hmin pcs 3 N
              (filter (fun r => if Req_dec_T (FLUXCAL r) (FLUXCAL r)
                                then true else false) object_lc)
              200 (1 / 4) [b1; b2] HT (le_n 3) Htb [])
    as (f12 & E12 & L12).
  destruct (all_bands_loop_ok minimize Hmin pcs 3 N
              (filter (fun r => if Req_dec_T (FLUXCAL r) (FLUXCAL r)
                                then true else false) object_lc)
              200 (1 / 4) more HT (le_n 3) Htb [])
    as (fm & Em & Lm).
  fold (extract_features_all_bands minimize pcs [b1; b2]
          (filter (fun r => if Req_dec_T (FLUXCAL r) (FLUXCAL r)
                            then true else false) object_lc) 200 (1 / 4))
    in E12.
  fold (extract_features_all_bands minimize pcs more
          (filter (fun r => if Req_dec_T (FLUXCAL r) (FLUXCAL r)
                            then true else false) object_lc) 200 (1 / 4))
    in Em.
  unfold object_features.
  change (b1 :: b2 :: more) with ([b1; b2] ++ more).
  rewrite extract_features_all_bands_app_aux.
  rewrite E12, Em. cbn [bind].
  simpl in L12. unfold enumerate.
  rewrite !pair_by_position_ok
    by (rewrite length_get_feature_names, ?length_app; lia).
  rewrite length_get_feature_names. cbn [Nat.mul Nat.add].
  cbn [skipn]. rewrite firstn_app.
  replace (10 - length f12)%nat with 0%nat by lia.
  cbn [firstn]. rewrite app_nil_r. reflexivity.
Qed.

Lemma object_features_keeps_two_bands_witness :
  object_features minimize_at_x0 example_lc example_pcs
    ["g"; "r"; "i"]%string
  = object_features minimize_at_x0 example_lc example_pcs ["g"; "r"]%string.
Proof.
  apply (object_features_keeps_two_bands minimize_at_x0 example_lc
           example_pcs 5 "g"%string "r"%string ["i"%string]).
  - exact minimize_at_x0_returns.
  - exact shape_example_pcs.
Defined.

(** ** Type names *)

Ltac snana_cases n :=
  unfold snana_ob_type_name;
  repeat match goal with
         | |- context [(n =? ?k)%Z] =>
             destruct (Z.eqb_spec n k); [subst n|]
         end.

Lemma snana_ob_type_name_table (n : Z) (s : string) :
  snana_ob_type_name n = Some s ->
  In (n, s)
    [(141, "141: 91BG"); (143, "143: Iax"); (145, "145: point Ia");
     (149, "149: KN GRANDMA"); (150, "150: KN GW170817");
     (151, "151: KN Kasen 2017"); (160, "160: Superluminous SN");
     (161, "161: pair instability SN"); (162, "162: ILOT"); (163, "163: CART");
     (164, "164: TDE"); (170, "170: AGN"); (180, "180: RRLyrae");
     (181, "M 181: dwarf_flares"); (183, "183: PHOEBE");
     (190, "190: uLens_BSR"); (191, "191: uLens_Bachelet");
     (192, "192: uLens_STRING"); (114, "114: MOSFIT-IIn");
     (113, "113: Core collapse Type II pca");
     (112, "112: Core collapse Type II"); (102, "102: MOSFIT-Ibc");
     (103, "103: Core collapse Type Ibc"); (101, "101: Ia SN");
     (0, "0: Unknown")]%Z%string.
Proof.
  snana_cases n; intros H; try discriminate;
    injection H as <-; simpl; tauto.
Qed.

(** X12. Every type number the chain knows is named by a label of its own:
    two numbers with the same label are the same number. *)
Theorem snana_ob_type_name_injective (a b : Z) (s : string) :
  snana_ob_type_name a = Some s -> snana_ob_type_name b = Some s -> a = b.
Proof.
  intros Ha Hb.
  apply snana_ob_type_name_table in Ha.
  apply snana_ob_type_name_table in Hb.
  simpl in Ha, Hb.
  repeat match type of Ha with
         | _ \/ _ => destruct Ha as [Ha|Ha]
         end;
    try contradiction; injection Ha as <- <-;
    repeat match type of Hb with
           | _ \/ _ => destruct Hb as [Hb|Hb]
           end;
    try contradiction; inversion Hb; reflexivity.
Qed.

Lemma snana_ob_type_name_injective_witness : 150%Z = 150%Z.
Proof.
  apply (snana_ob_type_name_injective 150 150 "150: KN GW170817"%string);
    reflexivity.
Defined.

(** X13. A label is returned exactly for the 25 type numbers of the chain
    ([None] for every other number), and every label starts with the
    decimal type number followed by ": ", except the one of 181, which is
    "M 181: dwarf_flares". *)
Theorem snana_ob_type_name_labels (n : Z) :
  (snana_ob_type_name n = None <-> ~ In n snana_type_numbers)
  /\ forall s, snana_ob_type_name n = Some s ->
       if (n =? 181)%Z then s = "M 181: dwarf_flares"%string
       else String.prefix (str_Z n ++ ": ") s = true.
Proof.
  split.
  - split.
    + snana_cases n; intros H; try discriminate.
      unfold snana_type_numbers. simpl. intuition congruence.
    + intros Hn. snana_cases n; try reflexivity;
        exfalso; apply Hn; unfold snana_type_numbers; simpl; tauto.
  - intros s H. apply snana_ob_type_name_table in H. simpl in H.
    repeat match type of H with
           | _ \/ _ => destruct H as [H|H]
           end;
      try contradiction; injection H as <- <-; reflexivity.
Qed.

(** ** Event types *)

Lemma lookup_found (meta_df : list (Z * Z)) (id : Z) :
  In id (map fst meta_df) ->
  exists t,
    np_index (map snd (filter (fun r => (fst r =? id)%Z) meta_df)) 0%Z = Ok t
    /\ first_match meta_df id t.
Proof.
  induction meta_df as [|[k t] meta IH]; intros Hin; [contradiction|].
  cbn [filter fst]. destruct (Z.eqb_spec k id) as [->|Hne].
  - exists t. split; [reflexivity|].
    exists [], meta. split; [reflexivity|]. simpl. tauto.
  - destruct IH as (t' & E & before & after & Hm & Hb).
    { simpl in Hin. destruct Hin; [congruence|assumption]. }
    exists t'. split; [exact E|].
    exists ((k, t) :: before), after. split.
    + rewrite Hm. reflexivity.
    + simpl. intros [H|H]; [congruence|contradiction].
Qed.

Lemma lookup_missing (meta_df : list (Z * Z)) (id : Z) :
  ~ In id (map fst meta_df) ->
  np_index (map snd (filter (fun r => (fst r =? id)%Z) meta_df)) 0%Z
  = Raise IndexError.
Proof.
  intros Hn. rewrite filter_none; [reflexivity|].
  intros [k t] Hin. apply Z.eqb_neq. intros E. simpl in E. subst k.
  apply Hn. apply in_map_iff. exists (id, t). split; [reflexivity|exact Hin].
Qed.

Lemma event_type_loop_found (meta_df : list (Z * Z)) (key : list Z) :
  Forall (fun id => In id (map fst meta_df)) key ->
  forall event_types event_names,
  exists types,
    Forall2 (first_match meta_df) key types
    /\ event_type_loop key meta_df event_types event_names
       = Ok (event_types ++ types,
             event_names ++ map snana_ob_type_name types).
Proof.
  induction 1 as [|id key Hid _ IH]; intros et en.
  - exists []. split; [constructor|]. simpl. rewrite !app_nil_r. reflexivity.
  - destruct (lookup_found meta_df id Hid) as (t & E & Hfirst).
    destruct (IH (et ++ [t]) (en ++ [snana_ob_type_name t]))
      as (types & HF & Eloop).
    exists (t :: types). split; [constructor; assumption|].
    cbn [event_type_loop]. rewrite E. cbn [bind]. rewrite Eloop.
    rewrite <- !app_assoc. reflexivity.
Qed.

Lemma event_type_loop_missing (meta_df : list (Z * Z)) (key : list Z) :
  Exists (fun id => ~ In id (map fst meta_df)) key ->
  forall event_types event_names,
  event_type_loop key meta_df event_types event_names = Raise IndexError.
Proof.
  induction 1 as [id key Hid|id key _ IH]; intros et en;
    cbn [event_type_loop].
  - rewrite lookup_missing by exact Hid. reflexivity.
  - destruct (np_index _ 0%Z) as [t|e] eqn:E.
    + cbn [bind]. apply IH.
    + cbn [bind].
      destruct (in_dec Z.eq_dec id (map fst meta_df)) as [Hin|Hout].
      * destruct (lookup_found meta_df id Hin) as (t & E' & _). congruence.
      * rewrite lookup_missing in E by exact Hout. congruence.
Qed.

(** X14. When every requested id has a row in the table, [get_event_type]
    returns one type per id, in the order of the ids, each the type of the
    first row with that id; with [fetch_type_name] it adds the name
    [snana_ob_type_name] gives each of these types. *)
Theorem get_event_type_found (key : Z + list Z) (meta_df : list (Z * Z)) :
  (forall id, In id (key_list key) -> In id (map fst meta_df)) ->
  exists types,
    Forall2 (first_match meta_df) (key_list key) types
    /\ get_event_type key meta_df false = Ok (Types types)
    /\ get_event_type key meta_df true
       = Ok (TypesAndNames types (map snana_ob_type_name types)).
Proof.
  intros Hall.
  destruct (event_type_loop_found meta_df (key_list key)
              (proj2 (Forall_forall _ _) Hall) [] [])
    as (types & HF & E).
  exists types. split; [exact HF|].
  unfold get_event_type. fold (key_list key). rewrite E.
  split; reflexivity.
Qed.

Lemma get_event_type_found_witness :
  exists types,
    Forall2 (first_match example_meta) (key_list (inr [2; 1]%Z)) types
    /\ get_event_type (inr [2; 1]%Z) example_meta false = Ok (Types types)
    /\ get_event_type (inr [2; 1]%Z) example_meta true
       = Ok (TypesAndNames types (map snana_ob_type_name types)).
Proof.
  apply (get_event_type_found (inr [2; 1]%Z) example_meta).
  intros id Hid. simpl in Hid |- *. lia.
Defined.

(** X15. When some requested id has no row in the table, [get_event_type]
    raises [IndexError], with or without [fetch_type_name]. *)
Theorem get_event_type_missing (key : Z + list Z) (meta_df : list (Z * Z))
  (fetch_type_name : bool) (id : Z) :
  In id (key_list key) -> ~ In id (map fst meta_df) ->
  get_event_type key meta_df fetch_type_name = Raise IndexError.
Proof.
  intros Hid Hout. unfold get_event_type. fold (key_list key).
  rewrite event_type_loop_missing; [reflexivity|].
  apply Exists_exists. exists id. split; assumption.
Qed.

Lemma get_event_type_missing_witness :
  get_event_type (inl 3%Z) example_meta true = Raise IndexError.
Proof.
  apply (get_event_type_missing (inl 3%Z) example_meta true 3%Z).
  - left. reflexivity.
  - simpl. lia.
Defined.

(** ** The alert region *)

Lemma Rleb_true (x y : R) : Rleb x y = true <-> x <= y.
Proof. unfold Rleb. destruct (Rle_dec x y); split; auto; discriminate. Qed.

Lemma sample_first_draws : sample_draws sample_first.
Proof.
  intros [|r l] H; [congruence|]. left. reflexivity.
Qed.

Lemma fold_left_Rmin_le (t : list R) :
  forall x, fold_left Rmin t x <= x
            /\ Forall (fun y => fold_left Rmin t x <= y) t.
Proof.
  induction t as [|y t IH]; intros x; simpl.
  - split; [lra|constructor].
  - destruct (IH (Rmin x y)) as [H1 H2].
    assert (Hx := Rmin_l x y). assert (Hy := Rmin_r x y).
    split; [lra|]. constructor; [lra|exact H2].
Qed.

Lemma np_amin_le (l : list R) (a : R) :
  np_amin l = Ok a -> Forall (fun y => a <= y) l.
Proof.
  destruct l as [|x t]; [discriminate|].
  intros H. injection H as <-.
  destruct (fold_left_Rmin_le t x) as [H1 H2].
  constructor; assumption.
Qed.

Lemma mimic_region_faint_aux (sample : list row -> row) (lc : list row)
  (flux_lim : R) (duration : option R) :
  (forall r, In r lc -> FLUXCAL r <= flux_lim) ->
  extract_mimic_alerts_region sample lc flux_lim None duration = Ok ([], 0).
Proof.
  intros H. unfold extract_mimic_alerts_region.
  rewrite filter_none; [reflexivity|].
  intros r Hr. unfold Rltb.
  destruct (Rlt_dec flux_lim (FLUXCAL r)); [|reflexivity].
  specialize (H r Hr). lra.
Qed.

(** X16. Without a given date, a light curve with no flux above [flux_lim]
    (an empty one included) yields the empty segment and the date 0,
    whatever [duration] is; nothing is drawn and no minimum is taken. *)
Theorem mimic_region_faint (sample : list row -> row) (lc : list row)
  (flux_lim : R) (duration : option R) :
  (forall r, In r lc -> FLUXCAL r <= flux_lim) ->
  extract_mimic_alerts_region sample lc flux_lim None duration = Ok ([], 0).
Proof. apply mimic_region_faint_aux. Qed.

Lemma mimic_region_faint_witness :
  extract_mimic_alerts_region sample_first
    [mkRow 0 "g" 100 10; mkRow 1 "r" 200 10] default_flux_lim None (Some 30)
  = Ok ([], 0).
Proof.
  apply (mimic_region_faint sample_first
           [mkRow 0 "g" 100 10; mkRow 1 "r" 200 10] default_flux_lim
           (Some 30)).
  intros r [<-|[<-|[]]]; unfold default_flux_lim; simpl; lra.
Defined.

Lemma in_segment (lc : list row) (start_date current_date : R) (r : row) :
  In r (filter (fun r => Rleb start_date (MJD r) && Rleb (MJD r) current_date)
               lc)
  <-> In r lc /\ start_date <= MJD r <= current_date.
Proof.
  rewrite filter_In, andb_true_iff, !Rleb_true. tauto.
Qed.

(** X17. Without a given date, when some flux exceeds [flux_lim] the date
    returned is the date of a row [r] whose flux exceeds [flux_lim], and,
    for a duration [d >= 0], the segment is made of exactly the rows dated
    within [d] before [r], [r] itself among them. *)
Theorem mimic_region_drawn (sample : list row -> row) (lc : list row)
  (flux_lim d : R) (bright : row) :
  sample_draws sample ->
  In bright lc -> flux_lim < FLUXCAL bright -> 0 <= d ->
  exists r segment,
    extract_mimic_alerts_region sample lc flux_lim None (Some d)
    = Ok (segment, MJD r)
    /\ In r lc /\ flux_lim < FLUXCAL r /\ In r segment
    /\ forall r', In r' segment
                  <-> In r' lc /\ MJD r - d <= MJD r' <= MJD r.
Proof.
  intros Hs Hin Hfl Hd. unfold extract_mimic_alerts_region.
  set (above := filter (fun r => Rltb flux_lim (FLUXCAL r)) lc).
  assert (Hb : In bright above).
  { unfold above. apply filter_In. split; [exact Hin|].
    apply Rltb_true. exact Hfl. }
  assert (Hne : above <> []) by (intros E; rewrite E in Hb; contradiction).
  replace (Nat.eqb (length above) 0) with false
    by (symmetry; apply Nat.eqb_neq; destruct above; [congruence|simpl; lia]).
  assert (Hr := Hs above Hne).
  unfold above in Hr. apply filter_In in Hr. destruct Hr as [Hrl Hrf].
  apply Rltb_true in Hrf. fold above in Hrl, Hrf.
  exists (sample above). eexists. split; [reflexivity|].
  split; [exact Hrl|]. split; [exact Hrf|]. split.
  - apply in_segment. split; [exact Hrl|lra].
  - intros r'. apply in_segment.
Qed.

Lemma mimic_region_drawn_witness :
  exists r segment,
    extract_mimic_alerts_region sample_first example_band default_flux_lim
      None (Some 30)
    = Ok (segment, MJD r)
    /\ In r example_band /\ default_flux_lim < FLUXCAL r /\ In r segment
    /\ forall r', In r' segment
                  <-> In r' example_band /\ MJD r - 30 <= MJD r' <= MJD r.
Proof.
  apply (mimic_region_drawn sample_first example_band default_flux_lim 30
           (mkRow (1 / 4) "g" 400 20)).
  - exact sample_first_draws.
  - right. left. reflexivity.
  - unfold default_flux_lim. simpl. lra.
  - lra.
Defined.

(** X18. With a date [cd] and a duration [d] given, the segment is made of
    exactly the rows dated in [[cd - d, cd]], the date comes back
    unchanged, and cutting the segment again changes nothing. *)
Theorem mimic_region_idempotent (sample : list row -> row) (lc : list row)
  (flux_lim cd d : R) :
  exists segment,
    extract_mimic_alerts_region sample lc flux_lim (Some cd) (Some d)
    = Ok (segment, cd)
    /\ (forall r, In r segment <-> In r lc /\ cd - d <= MJD r <= cd)
    /\ extract_mimic_alerts_region sample segment flux_lim (Some cd) (Some d)
       = Ok (segment, cd).
Proof.
  unfold extract_mimic_alerts_region. cbn [bind].
  eexists. split; [reflexivity|]. split.
  - intros r. apply in_segment.
  - rewrite filter_idem. reflexivity.
Qed.

(** X19. With a date [cd] given and [duration = None] nothing is cut at the
    start: the segment is every row dated up to [cd].  On an empty light
    curve the minimum date does not exist and [ValueError] is raised. *)
Theorem mimic_region_no_duration (sample : list row -> row) (lc : list row)
  (flux_lim cd : R) :
  extract_mimic_alerts_region sample lc flux_lim (Some cd) None
  = match lc with
    | [] => Raise ValueError
    | _ :: _ => Ok (filter (fun r => Rleb (MJD r) cd) lc, cd)
    end.
Proof.
  unfold extract_mimic_alerts_region.
  destruct lc as [|r0 lc'] eqn:E; [reflexivity|].
  rewrite <- E.
  destruct (np_amin (map MJD lc)) as [a|e] eqn:Ea;
    [|rewrite E in Ea; discriminate].
  cbn [bind]. f_equal. f_equal.
  apply np_amin_le in Ea. rewrite Forall_map in Ea.
  apply filter_ext_in. intros r Hr.
  replace (Rleb a (MJD r)) with true; [reflexivity|].
  symmetry. apply Rleb_true.
  apply (proj1 (Forall_forall _ lc) Ea r Hr).
Qed.

(** ** Loading templates *)

(** X20. [load_pcs] returns the leading components of the stored array, in
    order; asked for more components than are stored it returns them all,
    without an error, so the result has [min npcs K] components. *)
Theorem load_pcs_shape (stored : list (list R)) (K N npcs : nat) :
  shape stored K N ->
  shape (load_pcs stored npcs) (Nat.min npcs K) N
  /\ exists rest, stored = load_pcs stored npcs ++ rest.
Proof.
  intros [HK HN]. unfold load_pcs. split.
  - split.
    + rewrite length_firstn, HK. reflexivity.
    + apply Forall_forall. intros pc Hpc.
      apply (proj1 (Forall_forall _ stored) HN).
      rewrite <- (firstn_skipn npcs stored). apply in_or_app. left. exact Hpc.
  - exists (skipn npcs stored). symmetry. apply firstn_skipn.
Qed.

Lemma load_pcs_shape_witness :
  shape (load_pcs example_pcs 5) (Nat.min 5 3) 5
  /\ exists rest, example_pcs = load_pcs example_pcs 5 ++ rest.
Proof.
  apply (load_pcs_shape example_pcs 3 5 5). exact shape_example_pcs.
Defined.

(** ** The table of all light curves *)

Lemma in_insert_unique (x y : Z) (l : list Z) :
  In y (insert_unique x l) <-> y = x \/ In y l.
Proof.
  induction l as [|z l IH]; simpl; [intuition|].
  destruct (Z.ltb_spec x z); [simpl; intuition|].
  destruct (Z.eqb_spec x z); [subst; simpl; intuition|].
  simpl. rewrite IH. intuition.
Qed.

Lemma insert_unique_sorted (x : Z) (l : list Z) :
  StronglySorted Z.lt l -> StronglySorted Z.lt (insert_unique x l).
Proof.
  induction 1 as [|z l Hl IH Hz]; simpl.
  - constructor; constructor.
  - destruct (Z.ltb_spec x z).
    + constructor; [constructor; assumption|].
      constructor; [assumption|].
      eapply Forall_impl; [|exact Hz]. simpl. intros; lia.
    + destruct (Z.eqb_spec x z); [constructor; assumption|].
      constructor; [exact IH|].
      apply Forall_forall. intros y Hy. apply in_insert_unique in Hy.
      destruct Hy as [->|Hy]; [lia|].
      apply (proj1 (Forall_forall _ l) Hz y Hy).
Qed.

Lemma np_unique_in (l : list Z) (x : Z) : In x (np_unique l) <-> In x l.
Proof.
  induction l as [|y l IH]; simpl; [tauto|].
  rewrite in_insert_unique, IH. intuition.
Qed.

Lemma np_unique_sorted (l : list Z) : StronglySorted Z.lt (np_unique l).
Proof.
  induction l as [|y l IH]; simpl; [constructor|].
  apply insert_unique_sorted. exact IH.
Qed.

Lemma map_fst_combine {A B : Type} (l : list A) (l' : list B) :
  length l = length l' -> map fst (combine l l') = l.
Proof.
  revert l'; induction l as [|a l IH]; intros [|b l'] H; simpl in *;
    try discriminate; [reflexivity|].
  f_equal. apply IH. lia.
Qed.

Section DriverProperties.

Variable minimize :
  (list R -> res R) -> list R -> list (R * R) -> res (list R).
Variable sample : list row -> row.

Lemma lightcurve_row_date (lc_df : list (Z * row)) (object_id : Z)
  (pcs : list (list R)) (filters : list string) (mimic_alerts : bool)
  (named : list (string * R)) (date : option R) :
  lightcurve_row minimize sample lc_df object_id pcs filters mimic_alerts
  = Ok (named, date) ->
  (mimic_alerts = true -> exists current_date, date = Some current_date)
  /\ (mimic_alerts = false -> date = None).
Proof.
  unfold lightcurve_row. destruct mimic_alerts.
  - destruct (extract_mimic_alerts_region sample _ 200 None (Some 30))
      as [[segment cd]|e]; cbn [bind fst snd]; [|discriminate].
    destruct (extract_features_all_bands minimize pcs filters _ _ _)
      as [fs|e]; cbn [bind]; [|discriminate].
    destruct (mapM _ _) as [nm|e]; cbn [bind]; [|discriminate].
    intros H. injection H as _ <-. split; [eauto|discriminate].
  - cbn [bind fst snd].
    destruct (extract_features_all_bands minimize pcs filters _ _ _)
      as [fs|e]; cbn [bind]; [|discriminate].
    destruct (mapM _ _) as [nm|e]; cbn [bind]; [|discriminate].
    intros H. injection H as _ <-. split; [discriminate|reflexivity].
Qed.

Lemma lightcurves_loop_keys (lc_df : list (Z * row)) (pcs : list (list R))
  (filters : list string) (mimic_alerts : bool) (object_ids : list Z) :
  forall rows0 dates0 rows dates,
  lightcurves_loop minimize sample object_ids lc_df pcs filters mimic_alerts
    rows0 dates0 = Ok (rows, dates) ->
  map fst rows = map fst rows0 ++ object_ids
  /\ (mimic_alerts = true ->
      length dates = (length dates0 + length object_ids)%nat)
  /\ (mimic_alerts = false -> dates = dates0).
Proof.
  induction object_ids as [|id ids IH]; intros rows0 dates0 rows dates;
    cbn [lightcurves_loop].
  - intros H. injection H as <- <-. rewrite app_nil_r.
    repeat split; auto; simpl; lia.
  - destruct (lightcurve_row minimize sample lc_df id pcs filters
                mimic_alerts) as [[named date]|e] eqn:Erow;
      cbn [bind fst snd]; [|discriminate].
    intros H. apply IH in H. destruct H as (Hk & Ht & Hf).
    destruct (lightcurve_row_date _ _ _ _ _ _ _ Erow) as [Dt Df].
    split; [|split].
    + rewrite Hk, map_app, <- app_assoc. reflexivity.
    + intros Hm. destruct (Dt Hm) as [cd ->].
      rewrite (Ht Hm), length_app. simpl. lia.
    + intros Hm. rewrite (Df Hm) in Hf. apply Hf. exact Hm.
Qed.

End DriverProperties.

(** X21. Whenever [extract_features_all_lightcurves] returns, its table has
    exactly one row per distinct object key of the input, the rows in
    ascending order of the key; with [mimic_alerts] there is one
    [current_date] per row, without it there is no such column. *)
Theorem lightcurves_table_keys
  (minimize : (list R -> res R) -> list R -> list (R * R) -> res (list R))
  (sample : list row -> row) (lc_df : list (Z * row))
  (pcs : list (list R)) (filters : list string) (mimic_alerts : bool)
  (rows : list (Z * list (string * R))) (dates : option (list R)) :
  extract_features_all_lightcurves minimize sample lc_df pcs filters
    mimic_alerts = Ok (rows, dates) ->
  StronglySorted Z.lt (map fst rows)
  /\ (forall k, In k (map fst rows) <-> In k (map fst lc_df))
  /\ (if mimic_alerts
      then exists ds, dates = Some ds /\ length ds = length rows
      else dates = None).
Proof.
  unfold extract_features_all_lightcurves.
  destruct (lightcurves_loop minimize sample _ lc_df pcs filters
              mimic_alerts [] []) as [[rs ds]|e] eqn:E;
    cbn [bind fst snd]; [|discriminate].
  apply lightcurves_loop_keys in E. destruct E as (Hk & Ht & Hf).
  simpl in Hk.
  assert (Hrows : forall rows', rows' = rs ->
            StronglySorted Z.lt (map fst rows')
            /\ (forall k, In k (map fst rows') <-> In k (map fst lc_df))).
  { intros rows' ->. rewrite Hk. split; [apply np_unique_sorted|].
    intros k. apply np_unique_in. }
  destruct mimic_alerts; intros H; injection H as <- <-.
  - destruct (Hrows rs eq_refl) as [H1 H2].
    split; [exact H1|]. split; [exact H2|].
    exists ds. split; [reflexivity|].
    rewrite (Ht eq_refl). simpl.
    rewrite <- (length_map fst rs), Hk. reflexivity.
  - destruct (Hrows rs eq_refl) as [H1 H2].
    split; [exact H1|]. split; [exact H2|]. reflexivity.
Qed.

Lemma firstn_repeat_le (x : R) (k n : nat) :
  (k <= n)%nat -> firstn k (repeat x n) = repeat x k.
Proof.
  revert n; induction k as [|k IH]; intros n H; [reflexivity|].
  destruct n as [|n]; [lia|]. simpl. f_equal. apply IH. lia.
Qed.

Lemma mimic_region_with_duration (sample : list row -> row) (lc : list row)
  (flux_lim d : R) :
  exists segment current_date,
    extract_mimic_alerts_region sample lc flux_lim None (Some d)
    = Ok (segment, current_date).
Proof.
  unfold extract_mimic_alerts_region.
  destruct (Nat.eqb _ 0); cbn [bind]; eauto.
Qed.

Section DriverReturns.

Variable minimize :
  (list R -> res R) -> list R -> list (R * R) -> res (list R).
Variable sample : list row -> row.
Hypothesis minimize_ok : minimize_returns minimize.

Lemma lightcurve_row_ok (lc_df : list (Z * row)) (object_id : Z)
  (pcs : list (list R)) (N : nat) (filters : list string)
  (mimic_alerts : bool) :
  shape pcs 3 N -> (2 <= length filters)%nat ->
  exists named date,
    lightcurve_row minimize sample lc_df object_id pcs filters mimic_alerts
    = Ok (named, date)
    /\ map fst named = get_feature_names 3.
Proof.
  intros HT Hf. unfold lightcurve_row.
  set (object_lc := filter _ (map snd _)).
  assert (Hcut : exists lc' od,
            (if mimic_alerts
             then region <-
                    extract_mimic_alerts_region sample object_lc 200 None
                      (Some 30) ;;
                  Ok (fst region, Some (snd region))
             else Ok (object_lc, None)) = Ok (lc', od)).
  { destruct mimic_alerts; [|eauto].
    destruct (mimic_region_with_duration sample object_lc 200 30)
      as (seg & cd & ->). cbn [bind fst snd]. eauto. }
  destruct Hcut as (lc' & od & ->). cbn [bind fst snd].
  assert (Htb : 0 < 1 / 4) by lra.
  destruct (all_bands_loop_ok minimize minimize_ok pcs 3 N lc' 200 (1 / 4)
              filters HT (le_n 3) Htb []) as (fs & E & L).
  fold (extract_features_all_bands minimize pcs filters lc' 200 (1 / 4)) in E.
  rewrite E. cbn [bind]. simpl in L.
  unfold enumerate.
  rewrite pair_by_position_ok by (rewrite length_get_feature_names; lia).
  cbn [bind]. eexists _, _. split; [reflexivity|].
  apply map_fst_combine.
  rewrite length_firstn, length_get_feature_names. cbn [skipn]. lia.
Qed.

Lemma lightcurves_loop_ok (lc_df : list (Z * row)) (pcs : list (list R))
  (N : nat) (filters : list string) (mimic_alerts : bool)
  (object_ids : list Z) :
  shape pcs 3 N -> (2 <= length filters)%nat ->
  forall rows0 dates0,
  Forall (fun row => map fst (snd row) = get_feature_names 3) rows0 ->
  exists rows dates,
    lightcurves_loop minimize sample object_ids lc_df pcs filters mimic_alerts
      rows0 dates0 = Ok (rows, dates)
    /\ Forall (fun row => map fst (snd row) = get_feature_names 3) rows.
Proof.
  intros HT Hf.
  induction object_ids as [|id ids IH]; intros rows0 dates0 H0;
    cbn [lightcurves_loop].
  - eauto.
  - destruct (lightcurve_row_ok lc_df id pcs N filters mimic_alerts HT Hf)
      as (named & date & -> & Hn).
    cbn [bind fst snd]. apply IH.
    apply Forall_app. split; [exact H0|].
    constructor; [exact Hn|constructor].
Qed.

Lemma lightcurves_table_returns_aux (lc_df : list (Z * row))
  (pcs : list (list R)) (N : nat) (filters : list string)
  (mimic_alerts : bool) :
  shape pcs 3 N -> (2 <= length filters)%nat ->
  exists rows dates,
    extract_features_all_lightcurves minimize sample lc_df pcs filters
      mimic_alerts = Ok (rows, dates)
    /\ Forall (fun row => map fst (snd row) = get_feature_names 3) rows.
Proof.
  intros HT Hf. unfold extract_features_all_lightcurves.
  destruct (lightcurves_loop_ok lc_df pcs N filters mimic_alerts
              (np_unique (map fst lc_df)) HT Hf [] [] (Forall_nil _))
    as (rows & dates & -> & Hrows).
  cbn [bind fst snd]. destruct mimic_alerts; eauto.
Qed.

End DriverReturns.

Lemma lightcurves_table_keys_witness :
  exists rows dates,
    extract_features_all_lightcurves minimize_at_x0 sample_first
      example_lc_df example_pcs ["g"; "r"]%string true = Ok (rows, dates)
    /\ StronglySorted Z.lt (map fst rows)
    /\ (forall k, In k (map fst rows) <-> In k (map fst example_lc_df))
    /\ exists ds, dates = Some ds /\ length ds = length rows.
Proof.
  destruct (lightcurves_table_returns_aux minimize_at_x0 sample_first
              minimize_at_x0_returns example_lc_df example_pcs 5
              ["g"; "r"]%string true shape_example_pcs (le_n 2))
    as (rows & dates & E & _).
  exists rows, dates. split; [exact E|].
  apply (lightcurves_table_keys minimize_at_x0 sample_first example_lc_df
           example_pcs ["g"; "r"]%string true rows dates E).
Defined.

(** X22. With three templates of one length, at least two filters and an
    optimizer that keeps the dimension of its initial guess,
    [extract_features_all_lightcurves] returns a table, with or without
    [mimic_alerts], and every row carries the ten names of
    [get_feature_names()] in their order. *)
Theorem lightcurves_table_returns
  (minimize : (list R -> res R) -> list R -> list (R * R) -> res (list R))
  (sample : list row -> row) (lc_df : list (Z * row))
  (pcs : list (list R)) (N : nat) (filters : list string)
  (mimic_alerts : bool) :
  minimize_returns minimize -> shape pcs 3 N -> (2 <= length filters)%nat ->
  exists rows dates,
    extract_features_all_lightcurves minimize sample lc_df pcs filters
      mimic_alerts = Ok (rows, dates)
    /\ forall key named, In (key, named) rows ->
         map fst named = get_feature_names 3.
Proof.
  intros Hmin HT Hf.
  destruct (lightcurves_table_returns_aux minimize sample Hmin lc_df pcs N
              filters mimic_alerts HT Hf) as (rows & dates & E & Hrows).
  exists rows, dates. split; [exact E|].
  intros key named Hin.
  apply (proj1 (Forall_forall _ rows) Hrows (key, named) Hin).
Qed.

Lemma lightcurves_table_returns_witness :
  exists rows dates,
    extract_features_all_lightcurves minimize_at_x0 sample_first
      example_lc_df example_pcs ["g"; "r"]%string false = Ok (rows, dates)
    /\ forall key named, In (key, named) rows ->
         map fst named = get_feature_names 3.
Proof.
  apply (lightcurves_table_returns minimize_at_x0 sample_first example_lc_df
           example_pcs 5 ["g"; "r"]%string false).
  - exact minimize_at_x0_returns.
  - exact shape_example_pcs.
  - simpl. lia.
Defined.

(** X23. In [mimic_alerts] mode an object none of whose fluxes exceeds 200
    gets a row of ten zeros and the date 0: its alert region is empty, no
    band is fitted and neither the optimizer nor the draw matters. *)
Theorem lightcurve_row_faint_mimic
  (minimize : (list R -> res R) -> list R -> list (R * R) -> res (list R))
  (sample : list row -> row) (lc_df : list (Z * row)) (object_id : Z)
  (pcs : list (list R)) (filters : list string) :
  pcs <> [] -> (10 <= length filters * (length pcs + 2))%nat ->
  (forall r, In (object_id, r) lc_df -> FLUXCAL r <= 200) ->
  lightcurve_row minimize sample lc_df object_id pcs filters true
  = Ok (combine (get_feature_names 3) (repeat 0 10), Some 0).
Proof.
  intros Hpcs Hlen Hfaint. unfold lightcurve_row.
  rewrite notnan_filter_id.
  rewrite mimic_region_faint_aux.
  2:{ intros r Hr. apply in_map_iff in Hr.
      destruct Hr as ([k r'] & <- & Hin). apply filter_In in Hin.
      destruct Hin as [Hin Hk]. cbn [fst] in Hk. apply Z.eqb_eq in Hk.
      subst k. apply Hfaint. exact Hin. }
  cbn [bind fst snd].
  rewrite extract_features_absent_bands_aux;
    [|exact Hpcs|intros band r _ []].
  cbn [bind]. unfold enumerate.
  rewrite pair_by_position_ok
    by (rewrite length_get_feature_names, repeat_length; lia).
  cbn [bind skipn]. rewrite length_get_feature_names.
  rewrite firstn_repeat_le by exact Hlen. reflexivity.
Qed.

Lemma lightcurve_row_faint_mimic_witness :
  lightcurve_row minimize_at_x0 sample_first example_lc_df 3%Z example_pcs
    ["g"; "r"]%string true
  = Ok (combine (get_feature_names 3) (repeat 0 10), Some 0).
Proof.
  apply (lightcurve_row_faint_mimic minimize_at_x0 sample_first
           example_lc_df 3%Z example_pcs ["g"; "r"]%string).
  - discriminate.
  - simpl. lia.
  - intros r Hin. unfold example_lc_df in Hin. simpl in Hin.
    repeat match type of Hin with
           | _ \/ _ => destruct Hin as [Hin|Hin]
           end;
      try contradiction; try discriminate;
      injection Hin as <-; simpl; lra.
Defined.

(** ** Coefficients and templates that do not pair up *)

Lemma prediction_loop_truncates (T : list (list R)) :
  forall (c : list R) (acc : ndarray),
  prediction_loop acc T c
  = prediction_loop acc (firstn (length c) T) (firstn (length T) c).
Proof.
  induction T as [|a T IH]; intros c acc.
  - destruct c; reflexivity.
  - destruct c as [|b c]; [reflexivity|].
    cbn [length firstn prediction_loop].
    destruct (np_add acc (Vector (scale b a))) as [p|e]; cbn [bind];
      [apply IH|reflexivity].
Qed.

(** X26. [calc_prediction] pairs templates and coefficients with [zip]:
    when their numbers differ the surplus on either side is ignored
    without an error. *)
Theorem calc_prediction_ignores_surplus (c : list R) (T : list (list R)) :
  calc_prediction c T
  = calc_prediction (firstn (length T) c) (firstn (length c) T).
Proof. apply prediction_loop_truncates. Qed.

(** ** Two templates with the default indices *)

Lemma shape_two_pcs : shape two_pcs 2 5.
Proof. split; [reflexivity|]. repeat constructor. Qed.

Lemma minimize_at_x0_propagates : minimize_propagates minimize_at_x0.
Proof.
  intros f x0 bounds e H. unfold minimize_at_x0. rewrite H. reflexivity.
Qed.

Lemma calc_loss_two_coefficients (N : nat) (T : list (list R))
  (c0 c1 : R) (y sigma : list R) (m : list Z) (w : R) :
  shape T 2 N ->
  Forall (fun i => (0 <= i < Z.of_nat N)%Z) m ->
  length y = length m -> length sigma = length m ->
  calc_loss [c0; c1] T y sigma m w default_low_var_indices
  = Raise IndexError.
Proof.
  intros HT Hm Hy Hs. unfold calc_loss.
  assert (W := weighted_terms 2 N T [c0; c1] y sigma m HT ltac:(lia)
                 ltac:(simpl; lia) Hm Hy Hs).
  destruct (calc_prediction [c0; c1] T) as [yp|]; simpl in W |- *;
    [|discriminate].
  destruct (np_take yp m) as [rf|]; simpl in W |- *; [|discriminate].
  destruct (broadcast2 Rminus rf y) as [df|]; simpl in W |- *;
    [|discriminate].
  rewrite W. reflexivity.
Qed.

Lemma two_templates_fit_raises
  (minimize : (list R -> res R) -> list R -> list (R * R) -> res (list R)) :
  minimize_propagates minimize ->
  predict_band_features minimize example_band two_pcs default_time_bin
    default_flux_lim default_low_var_indices
  = Raise IndexError.
Proof.
  intros Hprop.
  rewrite (predict_band_features_fit minimize example_band _ _ _ two_pcs
             2 5 default_time_bin default_flux_lim default_low_var_indices
             shape_two_pcs ltac:(lia) example_peak).
  2:{ unfold default_flux_lim. simpl. lra. }
  2:{ cbn [MJD]. unfold default_time_bin. rewrite example_window.
      simpl. lia. }
  rewrite Hprop with (e := IndexError); [reflexivity|].
  cbn [repeat map].
  apply (calc_loss_two_coefficients 5).
  - exact shape_two_pcs.
  - apply Forall_index_lt. apply dates_index_in_range.
    unfold default_time_bin. lra.
  - rewrite !length_map, length_dates_to_arr_index. reflexivity.
  - rewrite !length_map, length_dates_to_arr_index. reflexivity.
Qed.

(** C10 as stated fails: with two templates, a band whose peak passes the
    gate and the default [low_var_indices = [1, 2]], the objective raises
    [IndexError] at the initial guess ([coeff[[1, 2]]] on two
    coefficients), and so does [predict_band_features] for every optimizer
    that lets the exception of its first evaluation escape: no list of
    P + 2 values is returned. *)
Lemma two_templates_bright_band_raises :
  shape two_pcs 2 5
  /\ (forall minimize, minimize_propagates minimize ->
        predict_band_features minimize example_band two_pcs default_time_bin
          default_flux_lim default_low_var_indices
        = Raise IndexError)
  /\ predict_band_features minimize_at_x0 example_band two_pcs
       default_time_bin default_flux_lim default_low_var_indices
     = Raise IndexError.
Proof.
  split; [exact shape_two_pcs|]. split.
  - exact two_templates_fit_raises.
  - apply two_templates_fit_raises. exact minimize_at_x0_propagates.
Qed.

(** ** Exact statements against float64 rounding *)

Module F64Facts.

Import PrimFloat.
#[local] Set Warnings "-inexact-float".

(** C8 as stated fails in float64: with the single template [[3.0]],
    [c1 = c2 = [0.1]], [a = 0.1] and [b = 0.3], the prediction of
    [a * c1 + b * c2] is [0.12] while
    [a * calc_prediction(c1) + b * calc_prediction(c2)] is
    [0.12000000000000002]. *)
Lemma calc_prediction_not_linear_float64 :
  (c <- F64.broadcast2 add (F64.scale 0.1 [0.1]) (F64.scale 0.3 [0.1]) ;;
   F64.calc_prediction c [[3]])%float
  = Ok (F64.Vector [0.12%float])
  /\ (p1 <- F64.calc_prediction [0.1] [[3]] ;;
      p2 <- F64.calc_prediction [0.1] [[3]] ;;
      F64.np_add (F64.nd_scale 0.1 p1) (F64.nd_scale 0.3 p2))%float
     = Ok (F64.Vector [0.12000000000000002%float])
  /\ eqb 0.12 0.12000000000000002 = false.
Proof. repeat split; vm_compute; reflexivity. Qed.

(** C2 as stated fails in float64: with the templates
    [[1, 1, 1], [0, 0, 0], [0, 0, 0]], [c = [1, 0, 0]], one observation
    [y = 0.25] at index 1 with error [7] and weight 4, [calc_loss] returns
    [0.5625 / 49 = 0.011479591836734694] while the formula of the claim,
    [((1 - 0.25) / 7)^2], is [0.011479591836734693]. *)
Lemma calc_loss_not_formula_float64 :
  F64.calc_loss [1; 0; 0]%float [[1; 1; 1]; [0; 0; 0]; [0; 0; 0]]%float
    [0.25%float] [7%float] [1%Z] 4%float (Some [1%Z; 2%Z])
  = Ok 0.011479591836734694%float
  /\ F64.loss_formula [1; 0; 0]%float
       [[1; 1; 1]; [0; 0; 0]; [0; 0; 0]]%float [0.25%float] [7%float] [1%Z]
       4%float [1%nat; 2%nat]
     = 0.011479591836734693%float
  /\ eqb 0.011479591836734694 0.011479591836734693 = false.
Proof. repeat split; vm_compute; reflexivity. Qed.

(** Rescaling meets rounding in the normalization: fluxes 300 and 700 with
    peak 700, scaled by [k = 0.7], are normalized to
    [0.4285714285714286] where the unscaled ones give
    [0.42857142857142855]. *)
Lemma normalized_flux_rounds_float64 :
  F64.normalize (map (mul 0.7) [300; 700])%float (0.7 * 700)%float
  = [0.4285714285714286; 1]%float
  /\ F64.normalize [300; 700]%float 700%float
     = [0.42857142857142855; 1]%float
  /\ eqb 0.4285714285714286 0.42857142857142855 = false.
Proof. repeat split; vm_compute; reflexivity. Qed.

End F64Facts.
